(** * Tailtown RAG server: indexer, vector store and reindex path

    A shallow embedding of [mcp-server/indexer.py], [mcp-server/vector_store.py]
    and of the reindex branch of [mcp-server/server.py], with the properties
    of the chunker, of the index pass, of the vector store and of the
    reindex sequence.

    Modelling conventions
    - a Python [str] is a [string]; [len] is [String.length] seen in [Z];
    - a Python [int] is a [Z] ([chunk_size], [chunk_overlap], [top_k], the
      indices handed back by the nearest-neighbour index);
    - a [dict] keyed by strings is a [gmap string _];
    - libraries outside the repository ([hashlib], [pathlib], [glob], the
      sentence-transformer model and the FAISS index) are section variables;
    - the logger is a list of records, newest last. *)

From Stdlib Require Import ZArith List String Ascii Bool Lia Sorted.
From stdpp Require Import base option gmap strings list fin_maps.
Import ListNotations.

Local Open Scope string_scope.
Local Open Scope list_scope.
Local Open Scope Z_scope.

(** ** Python string primitives used by the sources *)

Module PyStr.

Definition NL : ascii := "010"%char.

(** ["\n"] as a one-character string. *)
Definition nl : string := String NL EmptyString.

(** [len(s)] *)
Definition len (s : string) : Z := Z.of_nat (String.length s).

(** [s.split(sep)] for a one-character separator: never the empty list. *)
Fixpoint split (sep : ascii) (s : string) : list string :=
  match s with
  | EmptyString => [EmptyString]
  | String c s' =>
      if Ascii.eqb c sep then EmptyString :: split sep s'
      else match split sep s' with
           | [] => [String c EmptyString]
           | l :: ls => String c l :: ls
           end
  end.

(** [sep.join(l)] *)
Fixpoint join (sep : string) (l : list string) : string :=
  match l with
  | [] => EmptyString
  | x :: rest =>
      match rest with
      | [] => x
      | _ :: _ => String.append x (String.append sep (join sep rest))
      end
  end.

(** [s.startswith(p)] *)
Fixpoint startswith (p s : string) : bool :=
  match p, s with
  | EmptyString, _ => true
  | String _ _, EmptyString => false
  | String a p', String b s' => Ascii.eqb a b && startswith p' s'
  end.

(** [p in s] *)
Fixpoint contains (p s : string) : bool :=
  startswith p s ||
  match s with
  | EmptyString => false
  | String _ s' => contains p s'
  end.

(** [s.replace(old, '')] for a non-empty [old]: occurrences are removed
    left to right without overlap; [skip] counts the characters of the
    occurrence found last that are still to be dropped. *)
Fixpoint remove_from (old : string) (skip : nat) (s : string) : string :=
  match s with
  | EmptyString => EmptyString
  | String c s' =>
      match skip with
      | S k => remove_from old k s'
      | O =>
          if startswith old s
          then remove_from old (Nat.pred (String.length old)) s'
          else String c (remove_from old O s')
      end
  end.

Definition remove (old s : string) : string :=
  match old with
  | EmptyString => s
  | String _ _ => remove_from old O s
  end.

(** The characters below 256 that [str.strip()] removes. *)
Definition is_space (c : ascii) : bool :=
  let n := nat_of_ascii c in
  (Nat.eqb n 32 || (Nat.leb 9 n && Nat.leb n 13) || (Nat.leb 28 n && Nat.leb n 31)
   || Nat.eqb n 133 || Nat.eqb n 160)%bool.

Fixpoint lstrip (s : string) : string :=
  match s with
  | EmptyString => EmptyString
  | String c s' => if is_space c then lstrip s' else s
  end.

Fixpoint rstrip (s : string) : string :=
  match s with
  | EmptyString => EmptyString
  | String c s' =>
      match rstrip s' with
      | EmptyString => if is_space c then EmptyString else String c EmptyString
      | r => String c r
      end
  end.

(** [s.strip()] *)
Definition strip (s : string) : string := rstrip (lstrip s).

(** [s] starts with the text [p]; [s] ends with the text [p]. *)
Definition begins_with (s p : string) : Prop :=
  exists tail, s = String.append p tail.

Definition ends_with (s p : string) : Prop :=
  exists head, s = String.append head p.

(** The truth value of a list: [if l:] *)
Definition truthy {A} (l : list A) : bool :=
  match l with [] => false | _ :: _ => true end.

(** The characters of a list of lines, newlines not counted. *)
Definition total_len (l : list string) : Z :=
  fold_right (fun s acc => len s + acc) 0 l.

End PyStr.

Import PyStr.

(** ** indexer.py *)

Module Indexer.

(** The dictionaries the chunker appends to [chunks]. *)
Record Chunk := mkChunk {
  content : string;
  file_path : string;
  file_type : string;
  chunk_id : string;
  language : string;
  metadata : string
}.

(** The values of [files_index]. *)
Record FileInfo := mkFileInfo {
  fi_path : string;
  fi_type : string;
  fi_size : Z;
  fi_modified : string;
  fi_language : string
}.

(** [config.json], as the indexer and the vector store read it. *)
Record Config := mkConfig {
  project_root : string;
  index_patterns : list (string * list string);
  exclude_patterns : list string;
  chunk_size : Z;
  chunk_overlap : Z;
  embedding_model : string
}.

(** The state of the [for line in lines] loop of [_create_chunks]. *)
Record Loop := mkLoop {
  l_chunks : list Chunk;
  current_chunk : list string;
  current_size : Z
}.

Section Chunker.

(** [hashlib.md5(s.encode()).hexdigest()] *)
Variable md5_hexdigest : string -> string.
(** [Path(p).suffix] *)
Variable path_suffix : string -> string.

Variable config : Config.

Definition ext_map : list (string * string) :=
  [ (".ts", "typescript"); (".tsx", "typescript"); (".js", "javascript");
    (".jsx", "javascript"); (".py", "python"); (".md", "markdown");
    (".json", "json"); (".yml", "yaml"); (".yaml", "yaml");
    (".prisma", "prisma") ].

(** [d.get(k, default)] on a dictionary literal. *)
Fixpoint dict_get (d : list (string * string)) (k default : string) : string :=
  match d with
  | [] => default
  | (k', v) :: d' => if String.eqb k' k then v else dict_get d' k default
  end.

Definition _detect_language (path : string) : string :=
  dict_get ext_map (path_suffix path) "".

Definition is_declaration (line : string) : bool :=
  contains "export const" line || contains "export function" line
  || contains "class " line.

Definition _extract_metadata (text : string) (ftype : string) : string :=
  let lines := split NL text in
  let from_code :=
    if String.eqb ftype "code"
    then List.find is_declaration (firstn 10 lines) else None in
  match from_code with
  | Some line => strip line
  | None =>
      let from_doc :=
        if String.eqb ftype "documentation"
        then List.find (startswith "#") (firstn 5 lines) else None in
      match from_doc with
      | Some line => strip line
      | None => ""
      end
  end.

(** The dictionary built from the buffer at both [chunks.append] sites. *)
Definition make_chunk (path ftype : string) (buffer : list string) : Chunk :=
  let chunk_content := join nl buffer in
  {| content := chunk_content;
     file_path := path;
     file_type := ftype;
     chunk_id := md5_hexdigest chunk_content;
     language := _detect_language path;
     metadata := _extract_metadata chunk_content ftype |}.

(** [for prev_line in reversed(current_chunk)]: the argument is the
    reversed buffer, [overlap_lines.insert(0, _)] is a cons. *)
Fixpoint overlap_walk (overlap : Z) (reversed : list string)
    (overlap_lines : list string) (overlap_size : Z) : list string * Z :=
  match reversed with
  | [] => (overlap_lines, overlap_size)
  | prev_line :: rest =>
      if overlap_size + len prev_line >? overlap
      then (overlap_lines, overlap_size)
      else overlap_walk overlap rest (prev_line :: overlap_lines)
                        (overlap_size + len prev_line)
  end.

(** One iteration of [for line in lines]. *)
Definition loop_body (path ftype : string) (st : Loop) (line : string) : Loop :=
  let line_size := len line in
  let st1 :=
    if (current_size st + line_size >? chunk_size config)
       && truthy (current_chunk st)
    then
      let '(overlap_lines, overlap_size) :=
        overlap_walk (chunk_overlap config) (rev (current_chunk st)) [] 0 in
      {| l_chunks := l_chunks st ++ [make_chunk path ftype (current_chunk st)];
         current_chunk := overlap_lines;
         current_size := overlap_size |}
    else st in
  {| l_chunks := l_chunks st1;
     current_chunk := current_chunk st1 ++ [line];
     current_size := current_size st1 + line_size |}.

Definition _create_chunks (text path ftype : string) : list Chunk :=
  let lines := split NL text in
  let st := fold_left (loop_body path ftype) lines
              {| l_chunks := []; current_chunk := []; current_size := 0 |} in
  if truthy (current_chunk st)
  then l_chunks st ++ [make_chunk path ftype (current_chunk st)]
  else l_chunks st.

End Chunker.

(** *** The chunker seen on lines

    A chunk is the buffer at the moment it is emitted: the lines the
    overlap walk carried over from the chunk before it ([seed]) followed
    by the lines consumed since ([fresh]).  [spans] is the loop of
    [_create_chunks] with the buffer kept in these two parts; lemma
    [create_chunks_spans] below shows that [_create_chunks] emits exactly
    these buffers. *)
Record Span := mkSpan { seed : list string; fresh : list string }.

Definition span_lines (g : Span) : list string := seed g ++ fresh g.

Fixpoint spans (size_limit overlap : Z) (lines sd fr : list string)
    (size : Z) : list Span :=
  match lines with
  | [] => if truthy (sd ++ fr) then [mkSpan sd fr] else []
  | line :: rest =>
      if (size + len line >? size_limit) && truthy (sd ++ fr)
      then mkSpan sd fr ::
           (let '(overlap_lines, overlap_size) :=
              overlap_walk overlap (rev (sd ++ fr)) [] 0 in
            spans size_limit overlap rest overlap_lines [line]
                  (overlap_size + len line))
      else spans size_limit overlap rest sd (fr ++ [line]) (size + len line)
  end.

Definition chunk_spans (config : Config) (text : string) : list Span :=
  spans (chunk_size config) (chunk_overlap config) (split NL text) [] [] 0.

(** The seed is a trailing run of the lines of the chunk before. *)
Definition trails (prev sd : list string) : Prop :=
  exists front, prev = front ++ sd.

(** [chained P prev gs]: going through the chunks [gs] in order, [P]
    relates the lines of each chunk ([prev] before the first) to the seed
    of the next. *)
Fixpoint chained (P : list string -> list string -> Prop)
    (prev : list string) (gs : list Span) : Prop :=
  match gs with
  | [] => True
  | g :: rest => P prev (seed g) /\ chained P (span_lines g) rest
  end.

(** A seed is a trailing run of the chunk before, and it is empty or
    within the overlap. *)
Definition carried (overlap : Z) (prev sd : list string) : Prop :=
  trails prev sd /\ (sd = [] \/ total_len sd <= overlap).

(** The state the loop is in between two lines: nothing consumed yet,
    or one line consumed since the last emission, or a buffer within
    the limit. *)
Definition buffered (size_limit : Z) (sd fr : list string) : Prop :=
  (sd = [] /\ fr = []) \/
  (exists line, fr = [line]) \/
  (fr <> [] /\ total_len (sd ++ fr) <= size_limit).

(** An emitted buffer holds a line of its own; it is within the limit
    unless it is a seed followed by one line. *)
Definition emitted (size_limit : Z) (g : Span) : Prop :=
  fresh g <> [] /\
  (total_len (span_lines g) <= size_limit \/ exists line, fresh g = [line]).

(** The text two consecutive chunks have in common: the seed, joined as
    the chunk content is. *)
Definition overlap_text (g : Span) : string := join nl (seed g).

(** [adjacent R gs]: [R] relates every chunk of [gs] to the chunk after
    it. *)
Fixpoint adjacent (R : Span -> Span -> Prop) (gs : list Span) : Prop :=
  match gs with
  | [] => True
  | g :: rest =>
      match rest with
      | [] => True
      | next :: _ => R g next
      end /\ adjacent R rest
  end.

(** The chunk [g] was closed because the first line of [next] did not
    fit. *)
Definition closed_by (size_limit : Z) (g next : Span) : Prop :=
  exists line more,
    fresh next = line :: more /\
    size_limit < total_len (span_lines g) + len line.

(** The seed of [next] is the longest trailing run of [g] within the
    overlap: it is all of [g], or the line before it would not fit. *)
Definition longest_seed (overlap : Z) (g next : Span) : Prop :=
  exists front,
    span_lines g = front ++ seed next /\
    (front = [] \/
     exists before line,
       front = before ++ [line] /\
       overlap < total_len (seed next) + len line).

(** *** The files on disk and the index pass *)

(** What [open(p, 'r', encoding='utf-8')] followed by [f.read()] does. *)
Inductive ReadResult :=
| Text (text : string)
| DecodeFails
| ReadFails.

(** An existing path.  [d_size] is [os.path.getsize], [d_modified] is
    [datetime.fromtimestamp(os.path.getmtime(p)).isoformat()]. *)
Record DiskFile := mkDiskFile {
  d_isfile : bool;
  d_read : ReadResult;
  d_size : Z;
  d_modified : string
}.

Inductive Exn := UnicodeDecodeError | OSError.

Inductive result (A : Type) :=
| Return (a : A)
| Raise (e : Exn).
Arguments Return {A} a.
Arguments Raise {A} e.

Inductive LogRecord :=
| InfoIndexingComplete (files chunks : Z)
| WarnFailedToIndex (path : string) (e : Exn)
| ErrFailedToRead (path : string) (e : Exn).

(** The path a warning or an error of the log is about. *)
Definition log_names (r : LogRecord) (path : string) : Prop :=
  match r with
  | InfoIndexingComplete _ _ => False
  | WarnFailedToIndex p _ => p = path
  | ErrFailedToRead p _ => p = path
  end.

Record Stats := mkStats {
  files_indexed : Z;
  chunks_created : Z;
  total_size : Z;
  by_type : gmap string Z
}.

(** The two attributes of [TailtownIndexer] that change. *)
Record Indexer := mkIndexer {
  chunks : list Chunk;
  files_index : gmap string FileInfo
}.

(** What [get_file_content] returns when it does not return [None]. *)
Record FileContent := mkFileContent {
  fc_path : string;
  fc_content : string;
  fc_type : string;
  fc_size : Z;
  fc_modified : string;
  fc_language : string
}.

(** Every chunk of the indexer belongs to a file of its registry. *)
Definition registered (self : Indexer) : Prop :=
  Forall (fun c => is_Some (files_index self !! file_path c)) (chunks self).

(** The variables of [index_all] while it runs. *)
Record Pass := mkPass {
  p_indexer : Indexer;
  p_stats : Stats;
  p_log : list LogRecord
}.

Section Files.

Variable md5_hexdigest : string -> string.
Variable path_suffix : string -> string.
(** [glob(str(project_root / pattern), recursive=True)] *)
Variable glob : string -> list string.
(** The disk.  Paths are written relative to [project_root] everywhere:
    [project_root / p] and [p.relative_to(project_root)] are the
    identity of the model. *)
Variable fs : string -> option DiskFile.

Variable config : Config.

Definition isfile (path : string) : bool :=
  match fs path with
  | Some f => d_isfile f
  | None => false
  end.

Definition _find_files (pattern : string) : list string :=
  List.filter isfile (glob pattern).

Definition _should_exclude (rel_path : string) : bool :=
  existsb
    (fun pattern =>
       let pattern := remove "*" (remove "**" (remove "**/" pattern)) in
       contains pattern rel_path)
    (exclude_patterns config).

(** [open] and [read]: a missing path raises like any unreadable one. *)
Definition read_text (path : string) : ReadResult :=
  match fs path with
  | Some f => d_read f
  | None => ReadFails
  end.

(** [os.path.getsize(p)] and the formatted [os.path.getmtime(p)]. *)
Definition getsize (path : string) : result Z :=
  match fs path with
  | Some f => Return (d_size f)
  | None => Raise OSError
  end.

Definition getmtime (path : string) : result string :=
  match fs path with
  | Some f => Return (d_modified f)
  | None => Raise OSError
  end.

Definition _index_file (self : Indexer) (path ftype : string)
    : result (Indexer * list Chunk) :=
  match read_text path with
  | DecodeFails => Return (self, [])
  | ReadFails => Raise OSError
  | Text text =>
      match getmtime path with
      | Raise e => Raise e
      | Return modified =>
          let info :=
            {| fi_path := path;
               fi_type := ftype;
               fi_size := len text;
               fi_modified := modified;
               fi_language := _detect_language path_suffix path |} in
          Return
            ({| chunks := chunks self;
                files_index := <[path := info]> (files_index self) |},
             _create_chunks md5_hexdigest path_suffix config text path ftype)
      end
  end.

Definition warn (p : Pass) (r : LogRecord) : Pass :=
  {| p_indexer := p_indexer p; p_stats := p_stats p; p_log := p_log p ++ [r] |}.

(** The body of [for file_path in files]. *)
Definition index_one (ftype : string) (p : Pass) (path : string) : Pass :=
  if _should_exclude path then p
  else
    match _index_file (p_indexer p) path ftype with
    | Raise e => warn p (WarnFailedToIndex path e)
    | Return (self, new_chunks) =>
        let self :=
          {| chunks := chunks self ++ new_chunks;
             files_index := files_index self |} in
        let st := p_stats p in
        let st :=
          {| files_indexed := files_indexed st + 1;
             chunks_created := chunks_created st + Z.of_nat (length new_chunks);
             total_size := total_size st;
             by_type := by_type st |} in
        match getsize path with
        | Raise e =>
            warn {| p_indexer := self; p_stats := st; p_log := p_log p |}
                 (WarnFailedToIndex path e)
        | Return size =>
            {| p_indexer := self;
               p_stats :=
                 {| files_indexed := files_indexed st;
                    chunks_created := chunks_created st;
                    total_size := total_size st + size;
                    by_type :=
                      <[ftype := default 0 (by_type st !! ftype) + 1]> (by_type st) |};
               p_log := p_log p |}
        end
    end.

(** The body of [for pattern in patterns]. *)
Definition index_pattern (ftype : string) (p : Pass) (pattern : string) : Pass :=
  fold_left (index_one ftype) (_find_files pattern) p.

(** The body of [for file_type, patterns in ...items()]. *)
Definition index_group (p : Pass) (group : string * list string) : Pass :=
  fold_left (index_pattern (fst group)) (snd group) p.

Definition empty_stats : Stats :=
  {| files_indexed := 0; chunks_created := 0; total_size := 0; by_type := ∅ |}.

(** [index_all]: the indexer after the pass, the statistics returned
    and the records logged. *)
Definition index_all (self : Indexer) : Indexer * Stats * list LogRecord :=
  let p := fold_left index_group (index_patterns config)
             {| p_indexer := self; p_stats := empty_stats; p_log := [] |} in
  (p_indexer p, p_stats p,
   p_log p ++ [InfoIndexingComplete (files_indexed (p_stats p))
                                    (chunks_created (p_stats p))]).

Definition get_all_chunks (self : Indexer) : list Chunk := chunks self.

Definition get_file_content (self : Indexer) (path : string)
    : option FileContent * list LogRecord :=
  match fs path with
  | None => (None, [])
  | Some f =>
      match d_read f with
      | Text text =>
          (Some {| fc_path := path;
                   fc_content := text;
                   fc_type :=
                     match files_index self !! path with
                     | Some info => fi_type info
                     | None => "unknown"
                     end;
                   fc_size := len text;
                   fc_modified := d_modified f;
                   fc_language := _detect_language path_suffix path |},
           [])
      | DecodeFails => (None, [ErrFailedToRead path UnicodeDecodeError])
      | ReadFails => (None, [ErrFailedToRead path OSError])
      end
  end.

Definition reindex (self : Indexer) : Indexer * Stats * list LogRecord :=
  index_all {| chunks := []; files_index := ∅ |}.

(** From [p] to [q] the pass left [path] alone: its entry of the
    registry is the same, no chunk of it was added and nothing was
    logged about it. *)
Definition untouched (path : string) (p q : Pass) : Prop :=
  files_index (p_indexer q) !! path = files_index (p_indexer p) !! path /\
  (exists added,
     chunks (p_indexer q) = chunks (p_indexer p) ++ added /\
     Forall (fun c => file_path c <> path) added) /\
  (exists logged,
     p_log q = p_log p ++ logged /\
     Forall (fun r => ~ log_names r path) logged).

(** The iterations of [index_all] in order: the category of the group
    and the file, once per pattern that finds it. *)
Definition visits : list (string * string) :=
  flat_map
    (fun group =>
       flat_map
         (fun pattern =>
            List.map (fun path => (fst group, path)) (_find_files pattern))
         (snd group))
    (index_patterns config).

(** The iterations that reach the four updates of [stats]: the file is
    not excluded and [_index_file] returns. *)
Definition counted (visit : string * string) : bool :=
  negb (_should_exclude (snd visit))
  && match read_text (snd visit) with
     | ReadFails => false
     | _ => true
     end.

(** [os.path.getsize] as a number, for a sum. *)
Definition size_on_disk (path : string) : Z :=
  match fs path with
  | Some f => d_size f
  | None => 0
  end.

(** [info] is the entry [_index_file] writes for [path] in a group of
    category [ftype]. *)
Definition record_of (ftype path : string) (info : FileInfo) : Prop :=
  exists f text,
    fs path = Some f /\
    d_read f = Text text /\
    info = {| fi_path := path;
              fi_type := ftype;
              fi_size := len text;
              fi_modified := d_modified f;
              fi_language := _detect_language path_suffix path |}.

(** The chunks an iteration adds to the indexer. *)
Definition chunks_of_visit (visit : string * string) : list Chunk :=
  if _should_exclude (snd visit) then []
  else
    match read_text (snd visit) with
    | Text text =>
        _create_chunks md5_hexdigest path_suffix config text (snd visit) (fst visit)
    | _ => []
    end.

(** The iterations that end in the handler of [index_all]: the file is
    not excluded and cannot be opened or read. *)
Definition failing (visit : string * string) : bool :=
  negb (_should_exclude (snd visit))
  && match read_text (snd visit) with
     | ReadFails => true
     | _ => false
     end.

(** [path] is a regular file that a pattern of a group of category
    [ftype] finds and that no exclusion fragment matches. *)
Definition discovered (ftype path : string) : Prop :=
  _should_exclude path = false /\
  isfile path = true /\
  exists patterns pattern,
    In (ftype, patterns) (index_patterns config) /\
    In pattern patterns /\
    In path (glob pattern).

End Files.

End Indexer.

(** ** vector_store.py *)

Module VectorStore.

Import Indexer.

Section Store.

(** A row of an embedding array, and a similarity as the index reports
    it.  [float(score)] widens a single-precision number without
    changing its value, so a result carries the score itself. *)
Variable Vec : Type.
Variable Score : Type.

(** [model.encode] on one text, [faiss.normalize_L2] on one row and
    [astype('float32')] on one row. *)
Variable encode : string -> Vec.
Variable normalize_L2 : Vec -> Vec.
Variable astype_float32 : Vec -> Vec.

(** [IndexFlatIP.search] for one query row: [scores[0]] zipped with
    [indices[0]].  An index is the list of the rows added to it. *)
Variable index_search : list Vec -> Vec -> Z -> list (Score * Z).

Record Store := mkStore {
  index : option (list Vec);
  chunks : list Chunk
}.

(** [{**chunk, 'score': float(score)}] *)
Record SearchResult := mkResult {
  r_chunk : Chunk;
  r_score : Score
}.

(** The store [__init__] leaves. *)
Definition init : Store := {| index := None; chunks := [] |}.

Definition ntotal (rows : list Vec) : Z := Z.of_nat (length rows).

Definition embed (text : string) : Vec :=
  astype_float32 (normalize_L2 (encode text)).

Definition build (self : Store) (new_chunks : list Chunk) : Store :=
  if negb (truthy new_chunks) then self
  else
    let texts := List.map content new_chunks in
    let embeddings := List.map encode texts in
    let fresh_index : list Vec := [] in
    let embeddings := List.map normalize_L2 embeddings in
    {| index := Some (fresh_index ++ List.map astype_float32 embeddings);
       chunks := new_chunks |}.

(** [for score, idx in zip(scores[0], indices[0])].  The lookup cannot
    miss: the first test has sent such an [idx] to [continue]. *)
Fixpoint collect (self_chunks : list Chunk) (top_k : Z) (filter_type : string)
    (candidates : list (Score * Z)) (results : list SearchResult)
    : list SearchResult :=
  match candidates with
  | [] => results
  | (score, idx) :: rest =>
      if (idx <? 0) || (idx >=? Z.of_nat (length self_chunks))
      then collect self_chunks top_k filter_type rest results
      else
        match self_chunks !! Z.to_nat idx with
        | None => collect self_chunks top_k filter_type rest results
        | Some chunk =>
            if negb (String.eqb filter_type "all")
               && negb (String.eqb (file_type chunk) filter_type)
            then collect self_chunks top_k filter_type rest results
            else
              let results := results ++ [mkResult chunk score] in
              if Z.of_nat (length results) >=? top_k then results
              else collect self_chunks top_k filter_type rest results
        end
  end.

Definition search (self : Store) (query : string) (top_k : Z)
    (filter_type : string) : list SearchResult :=
  match index self with
  | None => []
  | Some rows =>
      if ntotal rows =? 0 then []
      else
        let query_embedding := astype_float32 (normalize_L2 (encode query)) in
        let candidates :=
          index_search rows query_embedding (Z.min (top_k * 3) (ntotal rows)) in
        collect (chunks self) top_k filter_type candidates []
  end.

Definition rebuild (self : Store) (new_chunks : list Chunk) : Store :=
  build {| index := None; chunks := [] |} new_chunks.

(** The filter lets a result through. *)
Definition passes (filter_type : string) (r : SearchResult) : Prop :=
  filter_type = "all" \/ file_type (r_chunk r) = filter_type.

(** A result is the chunk stored at the position a candidate names,
    with the score of that candidate. *)
Definition from_candidate (self_chunks : list Chunk)
    (candidates : list (Score * Z)) (r : SearchResult) : Prop :=
  exists idx,
    In (r_score r, idx) candidates /\
    0 <= idx < Z.of_nat (length self_chunks) /\
    self_chunks !! Z.to_nat idx = Some (r_chunk r).

(** What the loop of [search] makes of one candidate: nothing for an
    index out of range or a chunk of another category, a result
    otherwise. *)
Definition admitted (self_chunks : list Chunk) (filter_type : string)
    (candidate : Score * Z) : option SearchResult :=
  let '(score, idx) := candidate in
  if (idx <? 0) || (idx >=? Z.of_nat (length self_chunks)) then None
  else
    match self_chunks !! Z.to_nat idx with
    | None => None
    | Some chunk =>
        if negb (String.eqb filter_type "all")
           && negb (String.eqb (file_type chunk) filter_type)
        then None
        else Some (mkResult chunk score)
    end.

(** The stores a server can hold: [init], then any sequence of [build]
    and [rebuild]. *)
Inductive reachable : Store -> Prop :=
| reach_init : reachable init
| reach_build self cs : reachable self -> reachable (build self cs)
| reach_rebuild self cs : reachable self -> reachable (rebuild self cs).

(** Row [i] of the index is the embedding of chunk [i] of the stored
    list, and there are as many rows as chunks; a store without an
    index holds no chunk. *)
Definition aligned (self : Store) : Prop :=
  match index self with
  | None => chunks self = []
  | Some rows =>
      length rows = length (chunks self) /\
      forall (i : nat) (chunk : Chunk),
        chunks self !! i = Some chunk ->
        rows !! i = Some (embed (content chunk))
  end.

End Store.

Arguments index {Vec} _.
Arguments chunks {Vec} _.
Arguments mkStore {Vec} _ _.
Arguments init {Vec}.
Arguments r_chunk {Score} _.
Arguments r_score {Score} _.
Arguments mkResult {Score} _ _.

End VectorStore.

(** ** server.py: the reindex branch of [call_tool] and [initialize]

    [call_tool] runs [indexer.reindex] and then [vector_store.rebuild],
    each in a worker thread ([asyncio.to_thread]), while the event loop
    goes on serving the other requests; a [search] is served on the thread
    of the event loop.  Neither class takes a lock.

    The two are modelled at the grain of their reads and writes of
    [vector_store.index] and [vector_store.chunks]:
    - the reindex is the list [reindex_stmts] of its assignments, the body
      of [build] included ([self.chunks] is assigned at line 26, the index
      object is created empty at line 31 and filled at line 33);
    - a search is a machine that stops before every read of [self.index]
      and of [self.chunks] ([step]); it reads them again each time, as
      the source does, and keeps the index object it has loaded for the
      call of [search] on it;
    - an index object is a reference into [m_objects], so that the rows
      [add] puts into the new object are seen through a reference taken
      before.
    [index_all] is one statement: it writes to the indexer only, and no
    list the store holds changes under it, because [reindex] binds
    [indexer.chunks] to a new list before [index_all] extends it.
    [add] is one statement too. *)

Module Server.

Import Indexer.

Section Reindex.

Variable md5_hexdigest : string -> string.
Variable path_suffix : string -> string.
Variable glob : string -> list string.
Variable fs : string -> option DiskFile.
Variable config : Config.

Variable Vec : Type.
Variable Score : Type.
Variable encode : string -> Vec.
Variable normalize_L2 : Vec -> Vec.
Variable astype_float32 : Vec -> Vec.
Variable index_search : list Vec -> Vec -> Z -> list (Score * Z).

(** The globals [indexer] and [vector_store]. *)
Record Sys := mkSys {
  indexer : Indexer;
  vector_store : VectorStore.Store Vec
}.

(** The two calls of the branch, each taken whole. *)
Definition call_reindex (sys : Sys) : Sys :=
  let '(self, _, _) :=
    reindex md5_hexdigest path_suffix glob fs config (indexer sys) in
  mkSys self
        (VectorStore.rebuild Vec encode normalize_L2 astype_float32
           (vector_store sys) (get_all_chunks self)).

(** [initialize]: a new indexer, a pass, a new store built from the
    chunks of the pass. *)
Definition initialize : Sys :=
  let '(self, _, _) :=
    index_all md5_hexdigest path_suffix glob fs config
              {| chunks := []; files_index := ∅ |} in
  mkSys self
        (VectorStore.build Vec encode normalize_L2 astype_float32
           VectorStore.init (get_all_chunks self)).

(** *** The memory the two threads share *)

(** [m_index] is [vector_store.index]: [None] or a reference to an index
    object; [m_objects] holds the rows of every index object created so
    far, by reference; [m_chunks] is [vector_store.chunks]. *)
Record Mem := mkMem {
  m_indexer : Indexer;
  m_index : option nat;
  m_objects : list (list Vec);
  m_chunks : list Chunk
}.

(** The rows of the index object behind a reference. *)
Definition rows_of (m : Mem) (ref : nat) : list Vec :=
  default [] (m_objects m !! ref).

(** The store as a call that is alone would find it. *)
Definition store_of (m : Mem) : VectorStore.Store Vec :=
  VectorStore.mkStore
    match m_index m with
    | Some ref => Some (rows_of m ref)
    | None => None
    end
    (m_chunks m).

(** The memory of a server at rest: its index, if it has one, is the one
    object there is. *)
Definition mem_of (sys : Sys) : Mem :=
  match VectorStore.index (vector_store sys) with
  | Some rows =>
      {| m_indexer := indexer sys; m_index := Some 0%nat; m_objects := [rows];
         m_chunks := VectorStore.chunks (vector_store sys) |}
  | None =>
      {| m_indexer := indexer sys; m_index := None; m_objects := [];
         m_chunks := VectorStore.chunks (vector_store sys) |}
  end.

(** *** The reindex, statement by statement *)

Inductive Stmt :=
| ClearChunks        (* indexer.py 166: self.chunks = [] *)
| ClearFilesIndex    (* indexer.py 167: self.files_index = {} *)
| IndexAll           (* indexer.py 168: return self.index_all() *)
| DropIndex          (* vector_store.py 57: self.index = None *)
| DropChunks         (* vector_store.py 58: self.chunks = [] *)
| StoreChunks        (* vector_store.py 26: self.chunks = chunks *)
| NewIndex           (* vector_store.py 31: self.index = faiss.IndexFlatIP(..) *)
| AddRows.           (* vector_store.py 33: self.index.add(..) *)

(** The argument of [rebuild] is [indexer.get_all_chunks()], the list
    the indexer holds once [index_all] has returned.  For the empty list
    [build] returns at line 22, before any assignment. *)
Definition exec (m : Mem) (s : Stmt) : Mem :=
  let new_chunks := get_all_chunks (m_indexer m) in
  match s with
  | ClearChunks =>
      mkMem {| chunks := []; files_index := files_index (m_indexer m) |}
            (m_index m) (m_objects m) (m_chunks m)
  | ClearFilesIndex =>
      mkMem {| chunks := chunks (m_indexer m); files_index := ∅ |}
            (m_index m) (m_objects m) (m_chunks m)
  | IndexAll =>
      mkMem (fst (fst (index_all md5_hexdigest path_suffix glob fs config
                                 (m_indexer m))))
            (m_index m) (m_objects m) (m_chunks m)
  | DropIndex => mkMem (m_indexer m) None (m_objects m) (m_chunks m)
  | DropChunks => mkMem (m_indexer m) (m_index m) (m_objects m) []
  | StoreChunks =>
      if truthy new_chunks
      then mkMem (m_indexer m) (m_index m) (m_objects m) new_chunks
      else m
  | NewIndex =>
      if truthy new_chunks
      then mkMem (m_indexer m) (Some (length (m_objects m)))
                 (m_objects m ++ [[]]) (m_chunks m)
      else m
  | AddRows =>
      if truthy new_chunks
      then
        match m_index m with
        | Some ref =>
            let texts := List.map content new_chunks in
            let embeddings := List.map encode texts in
            let embeddings := List.map normalize_L2 embeddings in
            mkMem (m_indexer m) (m_index m)
                  (alter (fun rows => rows ++ List.map astype_float32 embeddings)
                         ref (m_objects m))
                  (m_chunks m)
        | None => m
        end
      else m
  end.

Definition reindex_stmts : list Stmt :=
  [ClearChunks; ClearFilesIndex; IndexAll; DropIndex; DropChunks;
   StoreChunks; NewIndex; AddRows].

(** The memory after the first [j] statements of the reindex. *)
Definition after (j : nat) (m : Mem) : Mem :=
  fold_left exec (firstn j reindex_stmts) m.

(** *** A search, read by read *)

Inductive SearchExn :=
| AttributeError     (* None has no attribute ntotal, or search *)
| IndexError.        (* list index out of range *)

Inductive Outcome :=
| Returned (results : list (VectorStore.SearchResult Score))
| Raised (e : SearchExn).

(** Where a call of [search] stands: before the read it does next, with
    the locals it has. *)
Inductive Pc :=
| AtTestNone         (* 37: self.index is None *)
| AtTestEmpty        (* 37: self.index.ntotal == 0 *)
| AtEncode           (* 40, 41: the query is embedded *)
| AtLoadIndex        (* 42: self.index, the receiver of search *)
| AtLoadNtotal (receiver : nat)
                     (* 42: self.index.ntotal, in the second argument *)
| AtSearch (receiver : nat) (k : Z)
                     (* 42: the call *)
| AtBound (candidates : list (Score * Z))
          (results : list (VectorStore.SearchResult Score))
                     (* 44, 45: the next candidate, len(self.chunks) *)
| AtFetch (score : Score) (idx : Z) (candidates : list (Score * Z))
          (results : list (VectorStore.SearchResult Score))
                     (* 47 to 52: self.chunks[idx], filter, append, break *)
| Finished (outcome : Outcome).

(** One read, and what the call does up to the next. *)
Definition step (query : string) (top_k : Z) (filter_type : string)
    (m : Mem) (pc : Pc) : Pc :=
  match pc with
  | AtTestNone =>
      match m_index m with
      | None => Finished (Returned [])
      | Some _ => AtTestEmpty
      end
  | AtTestEmpty =>
      match m_index m with
      | None => Finished (Raised AttributeError)
      | Some ref =>
          if VectorStore.ntotal Vec (rows_of m ref) =? 0
          then Finished (Returned [])
          else AtEncode
      end
  | AtEncode => AtLoadIndex
  | AtLoadIndex =>
      match m_index m with
      | None => Finished (Raised AttributeError)
      | Some ref => AtLoadNtotal ref
      end
  | AtLoadNtotal receiver =>
      match m_index m with
      | None => Finished (Raised AttributeError)
      | Some ref =>
          AtSearch receiver
                   (Z.min (top_k * 3) (VectorStore.ntotal Vec (rows_of m ref)))
      end
  | AtSearch receiver k =>
      let query_embedding := astype_float32 (normalize_L2 (encode query)) in
      AtBound (index_search (rows_of m receiver) query_embedding k) []
  | AtBound candidates results =>
      match candidates with
      | [] => Finished (Returned results)
      | (score, idx) :: rest =>
          if (idx <? 0) || (idx >=? Z.of_nat (length (m_chunks m)))
          then AtBound rest results
          else AtFetch score idx rest results
      end
  | AtFetch score idx rest results =>
      match m_chunks m !! Z.to_nat idx with
      | None => Finished (Raised IndexError)
      | Some chunk =>
          if negb (String.eqb filter_type "all")
             && negb (String.eqb (file_type chunk) filter_type)
          then AtBound rest results
          else
            let results := results ++ [VectorStore.mkResult chunk score] in
            if Z.of_nat (length results) >=? top_k
            then Finished (Returned results)
            else AtBound rest results
      end
  | Finished outcome => Finished outcome
  end.

(** [n] reads in a row, the memory not changing. *)
Fixpoint steps (query : string) (top_k : Z) (filter_type : string)
    (n : nat) (m : Mem) (pc : Pc) : Pc :=
  match n with
  | O => pc
  | S n => steps query top_k filter_type n m (step query top_k filter_type m pc)
  end.

(** The reads a search needs, at most, on a memory that does not
    change. *)
Definition reads_needed (query : string) (top_k : Z) (m : Mem) : nat :=
  match m_index m with
  | None => 1
  | Some ref =>
      let rows := rows_of m ref in
      7 + 2 * length
                (index_search rows (astype_float32 (normalize_L2 (encode query)))
                   (Z.min (top_k * 3) (VectorStore.ntotal Vec rows)))
  end.

(** *** The two together *)

(** Whose move it is: the next statement of the reindex, or the next
    read of the search. *)
Inductive Turn := Writer | Reader.

Record Race := mkRace {
  r_mem : Mem;
  r_todo : list Stmt;
  r_search : Pc
}.

Definition turn (query : string) (top_k : Z) (filter_type : string)
    (r : Race) (t : Turn) : Race :=
  match t with
  | Writer =>
      match r_todo r with
      | [] => r
      | s :: rest => mkRace (exec (r_mem r) s) rest (r_search r)
      end
  | Reader =>
      mkRace (r_mem r) (r_todo r)
             (step query top_k filter_type (r_mem r) (r_search r))
  end.

(** A reindex and a search started together on [sys] and run in the
    order [schedule] gives. *)
Definition play (sys : Sys) (query : string) (top_k : Z) (filter_type : string)
    (schedule : list Turn) : Race :=
  fold_left (turn query top_k filter_type) schedule
            (mkRace (mem_of sys) reindex_stmts AtTestNone).

End Reindex.

Arguments indexer {Vec} _.
Arguments vector_store {Vec} _.
Arguments mkSys {Vec} _ _.
Arguments m_indexer {Vec} _.
Arguments m_index {Vec} _.
Arguments m_objects {Vec} _.
Arguments m_chunks {Vec} _.
Arguments mkMem {Vec} _ _ _ _.
Arguments Returned {Score} _.
Arguments Raised {Score} _.
Arguments Finished {Score} _.
Arguments r_mem {Vec Score} _.
Arguments r_todo {Vec Score} _.
Arguments r_search {Vec Score} _.

End Server.

(** ** The statements of the specification that the sources do not meet

    Each is written as the specification words it, over the definitions
    above, so that it can be tested on an input. *)

Module Stated.

Import Indexer.

Section Chunker.

Variable md5_hexdigest : string -> string.
Variable path_suffix : string -> string.
Variable config : Config.

(** "Chunk content length is bounded above by [chunk_size] except when
    a single source line alone exceeds it": the length counts the
    newlines of the content, and the exception is read as widely as it
    can be (some line of the file is longer than [chunk_size]). *)
Definition content_within_chunk_size (text path ftype : string) : Prop :=
  Forall
    (fun c =>
       len (content c) <= chunk_size config \/
       Exists (fun line => chunk_size config < len line) (split NL text))
    (_create_chunks md5_hexdigest path_suffix config text path ftype).

(** "Empty file, zero chunks." *)
Definition empty_file_no_chunk (path ftype : string) : Prop :=
  _create_chunks md5_hexdigest path_suffix config "" path ftype = [].

(** "For [chunk_overlap = 0], consecutive chunks share no lines": no
    chunk is seeded with a line of the chunk before it. *)
Definition no_line_shared (text : string) : Prop :=
  Forall (fun g => seed g = []) (chunk_spans config text).

(** "Each chunk after the first begins with a suffix of the previous
    chunk whose character length is at most [chunk_overlap]": the
    length of the text carried over. *)
Definition overlap_text_within (text : string) : Prop :=
  Forall (fun g => len (overlap_text g) <= chunk_overlap config)
         (chunk_spans config text).

End Chunker.

Section IndexPass.

Variable md5_hexdigest : string -> string.
Variable path_suffix : string -> string.
Variable glob : string -> list string.
Variable fs : string -> option DiskFile.
Variable config : Config.

(** The disk search that does not find [path]. *)
Definition glob_without (path : string) (pattern : string) : list string :=
  List.filter (fun p => negb (String.eqb p path)) (glob pattern).

(** "Skipped per file, logged", and no part of the statistics: the
    pass logs a warning that names the file and returns the statistics
    of the pass that never meets it. *)
Definition skip_logged_uncounted (self : Indexer) (path : string) : Prop :=
  let '(_, stats, log) :=
    index_all md5_hexdigest path_suffix glob fs config self in
  let '(_, stats_without, _) :=
    index_all md5_hexdigest path_suffix (glob_without path) fs config self in
  (exists e, In (WarnFailedToIndex path e) log) /\ stats = stats_without.

End IndexPass.

Section Readers.

Variable md5_hexdigest : string -> string.
Variable path_suffix : string -> string.
Variable glob : string -> list string.
Variable fs : string -> option DiskFile.
Variable config : Config.

Variable Vec : Type.
Variable Score : Type.
Variable encode : string -> Vec.
Variable normalize_L2 : Vec -> Vec.
Variable astype_float32 : Vec -> Vec.
Variable index_search : list Vec -> Vec -> Z -> list (Score * Z).

(** "Either the fully-old state or the fully-new state from the
    perspective of a concurrent reader": in whatever order the statements
    of a reindex and the reads of a search started on the same server are
    run, the search, once finished, has returned what it returns on the
    server before the reindex or what it returns on the server after
    it. *)
Definition search_sees_old_or_new (sys : Server.Sys Vec)
    (query : string) (top_k : Z) (filter_type : string) : Prop :=
  forall schedule outcome,
    Server.r_search
      (Server.play md5_hexdigest path_suffix glob fs config Vec Score encode
         normalize_L2 astype_float32 index_search sys query top_k filter_type
         schedule)
    = Server.Finished outcome ->
    outcome
    = Server.Returned
        (VectorStore.search Vec Score encode normalize_L2 astype_float32
           index_search (Server.vector_store sys) query top_k filter_type) \/
    outcome
    = Server.Returned
        (VectorStore.search Vec Score encode normalize_L2 astype_float32
           index_search
           (Server.vector_store
              (Server.call_reindex md5_hexdigest path_suffix glob fs config Vec
                 encode normalize_L2 astype_float32 sys))
           query top_k filter_type).

End Readers.

End Stated.

(** ** Inputs the examples run on *)

Module Samples.

Import Indexer.

(** Stand-ins for the digest and the suffix of a path; no property below
    depends on what they return. *)
Definition digest (s : string) : string := s.
Definition suffix (_ : string) : string := ".py".

Definition sized (size overlap : Z) : Config :=
  {| project_root := "/srv/tailtown";
     index_patterns := [("code", ["src/**"])];
     exclude_patterns := ["**/node_modules/**"];
     chunk_size := size;
     chunk_overlap := overlap;
     embedding_model := "all-MiniLM-L6-v2" |}.

(** The same configuration with other exclusion patterns. *)
Definition excluding (patterns : list string) : Config :=
  {| project_root := "/srv/tailtown";
     index_patterns := [("code", ["src/**"])];
     exclude_patterns := patterns;
     chunk_size := 1000;
     chunk_overlap := 100;
     embedding_model := "all-MiniLM-L6-v2" |}.

(** A file given by its lines. *)
Definition file (lines : list string) : string := join nl lines.

(** A disk with one file that is not valid UTF-8. *)
Definition binary : DiskFile :=
  {| d_isfile := true; d_read := DecodeFails; d_size := 12;
     d_modified := "2025-01-01T00:00:00" |}.

Definition source : DiskFile :=
  {| d_isfile := true; d_read := Text (file ["import os"; "print(os.sep)"]);
     d_size := 23; d_modified := "2025-01-01T00:00:00" |}.

Definition disk (path : string) : option DiskFile :=
  if String.eqb path "src/logo.py" then Some binary
  else if String.eqb path "src/main.py" then Some source
  else None.

Definition found (pattern : string) : list string :=
  if String.eqb pattern "src/**" then ["src/logo.py"; "src/main.py"] else [].

Definition fresh_indexer : Indexer := {| chunks := []; files_index := ∅ |}.

(** Three chunks, and a nearest-neighbour index over one-number rows
    that ranks them the same way for every query; its third candidate
    is the index of no chunk. *)
Definition piece (path ftype text : string) : Chunk :=
  make_chunk digest suffix path ftype [text].

Definition pieces : list Chunk :=
  [ piece "src/main.py" "code" "import os";
    piece "docs/README.md" "documentation" "# Tailtown";
    piece "src/util.py" "code" "def f(): pass" ].

Definition ranking : list (Z * Z) := [(9, 0); (7, 1); (7, 5); (5, 2)].

Definition knn (_ : list Z) (_ : Z) (k : Z) : list (Z * Z) :=
  firstn (Z.to_nat k) ranking.

Definition same (row : Z) : Z := row.

(** The server once [initialize] has run on the sample disk. *)
Definition started : Server.Sys Z :=
  let self :=
    fst (fst (index_all digest suffix found disk (sized 1000 100) fresh_indexer)) in
  Server.mkSys self
    (VectorStore.build Z len same same VectorStore.init (get_all_chunks self)).

End Samples.

(** * Properties *)

(** ** Strings and lines *)

Module PyStrFacts.

Lemma len_nonneg (s : string) : 0 <= len s.
Proof. unfold len. lia. Qed.

Lemma total_len_nonneg (l : list string) : 0 <= total_len l.
Proof.
  induction l as [|s l IH]; simpl; [lia|].
  pose proof (len_nonneg s). lia.
Qed.

Lemma total_len_app (a b : list string) :
  total_len (a ++ b) = total_len a + total_len b.
Proof. induction a as [|s a IH]; simpl; lia. Qed.

Lemma total_len_rev (l : list string) : total_len (rev l) = total_len l.
Proof.
  induction l as [|s l IH]; simpl; [reflexivity|].
  rewrite total_len_app, IH. simpl. lia.
Qed.

(** Lines that total no character are all empty. *)
Lemma total_len_zero (l : list string) :
  total_len l <= 0 -> Forall (fun s => s = EmptyString) l.
Proof.
  induction l as [|s l IH]; simpl; intros H; constructor.
  - pose proof (total_len_nonneg l). unfold len in H.
    destruct s; [reflexivity | simpl in H; lia].
  - apply IH. pose proof (len_nonneg s). lia.
Qed.

Lemma truthy_false {A} (l : list A) : truthy l = false -> l = [].
Proof. destruct l; [reflexivity | discriminate]. Qed.

Lemma truthy_true {A} (l : list A) : truthy l = true -> l <> [].
Proof. destruct l; [discriminate | intros _ H; discriminate]. Qed.

Lemma length_append (a b : string) :
  String.length (String.append a b) = (String.length a + String.length b)%nat.
Proof.
  induction a as [|c a IH]; [reflexivity|].
  change (String.append (String c a) b) with (String c (String.append a b)).
  simpl. now rewrite IH.
Qed.

Lemma append_assoc (a b c : string) :
  String.append (String.append a b) c = String.append a (String.append b c).
Proof.
  induction a as [|x a IH]; [reflexivity|].
  change (String.append (String x a) b) with (String x (String.append a b)).
  change (String.append (String x a) (String.append b c))
    with (String x (String.append a (String.append b c))).
  change (String.append (String x (String.append a b)) c)
    with (String x (String.append (String.append a b) c)).
  now rewrite IH.
Qed.

(** Joining two non-empty runs of lines puts one newline between them. *)
Lemma join_app (a b : list string) :
  a <> [] -> b <> [] ->
  join nl (a ++ b) = String.append (join nl a) (String.append nl (join nl b)).
Proof.
  intros Ha Hb. induction a as [|x a IH]; [congruence|].
  destruct a as [|y a].
  - simpl. destruct b; [congruence | reflexivity].
  - change (join nl ((x :: y :: a) ++ b))
      with (String.append x (String.append nl (join nl ((y :: a) ++ b)))).
    rewrite IH by discriminate.
    change (join nl (x :: y :: a))
      with (String.append x (String.append nl (join nl (y :: a)))).
    now rewrite !append_assoc.
Qed.

(** The characters of a joined buffer: those of its lines and one
    newline between any two. *)
Lemma len_join (l : list string) :
  l <> [] -> len (join nl l) = total_len l + Z.of_nat (length l) - 1.
Proof.
  intros Hl. induction l as [|x l IH]; [congruence|].
  destruct l as [|y l].
  - simpl. lia.
  - change (join nl (x :: y :: l))
      with (String.append x (String.append nl (join nl (y :: l)))).
    unfold len in *. rewrite !length_append.
    change (total_len (x :: y :: l))
      with (Z.of_nat (String.length x) + total_len (y :: l)).
    specialize (IH ltac:(discriminate)).
    change (String.length nl) with 1%nat.
    change (length (x :: y :: l)) with (S (length (y :: l))).
    lia.
Qed.

Lemma append_nil_r (s : string) : String.append s EmptyString = s.
Proof.
  induction s as [|c s IH]; [reflexivity|].
  change (String.append (String c s) EmptyString)
    with (String c (String.append s EmptyString)).
  now rewrite IH.
Qed.

Lemma join_begins (a b : list string) :
  begins_with (join nl (a ++ b)) (join nl a).
Proof.
  destruct b as [|y b].
  - exists EmptyString. now rewrite app_nil_r, append_nil_r.
  - destruct a as [|x a].
    + exists (join nl (y :: b)). reflexivity.
    + exists (String.append nl (join nl (y :: b))).
      now apply join_app.
Qed.

Lemma join_ends (a b : list string) :
  ends_with (join nl (a ++ b)) (join nl b).
Proof.
  destruct a as [|x a].
  - exists EmptyString. reflexivity.
  - destruct b as [|y b].
    + exists (join nl (x :: a)). now rewrite app_nil_r, append_nil_r.
    + exists (String.append (join nl (x :: a)) nl).
      rewrite join_app by discriminate. now rewrite append_assoc.
Qed.

Lemma split_nonempty (sep : ascii) (s : string) : split sep s <> [].
Proof.
  destruct s as [|c s]; simpl; [discriminate|].
  destruct (Ascii.eqb c sep); [discriminate|].
  destruct (split sep s); discriminate.
Qed.

End PyStrFacts.

(** ** The chunker *)

Module ChunkerFacts.

Import Indexer PyStrFacts.

(** The walk back through the emitted buffer returns a trailing run of
    it together with its size, and the run is empty or within the
    overlap. *)
Lemma overlap_walk_acc (overlap : Z) (reversed acc : list string) (size : Z) :
  exists taken rest,
    reversed = taken ++ rest /\
    overlap_walk overlap reversed acc size
      = (rev taken ++ acc, size + total_len taken) /\
    (taken = [] \/ size + total_len taken <= overlap).
Proof.
  revert acc size.
  induction reversed as [|prev_line reversed IH]; intros acc size.
  - exists [], []. simpl. repeat split; [f_equal; lia | now left].
  - simpl. destruct (size + len prev_line >? overlap) eqn:Hcmp.
    + exists [], (prev_line :: reversed). simpl.
      repeat split; [f_equal; lia | now left].
    + destruct (IH (prev_line :: acc) (size + len prev_line))
        as (taken & rest & -> & Hwalk & Hfit).
      exists (prev_line :: taken), rest. simpl. repeat split.
      * rewrite Hwalk. rewrite <- app_assoc. simpl. f_equal. lia.
      * right. destruct Hfit as [-> | Hfit]; simpl in *; lia.
Qed.

Lemma overlap_walk_trails (overlap : Z) (buffer : list string) :
  exists sd,
    overlap_walk overlap (rev buffer) [] 0 = (sd, total_len sd) /\
    trails buffer sd /\
    (sd = [] \/ total_len sd <= overlap).
Proof.
  destruct (overlap_walk_acc overlap (rev buffer) [] 0)
    as (taken & rest & Hrev & Hwalk & Hfit).
  exists (rev taken). rewrite app_nil_r in Hwalk.
  rewrite total_len_rev. repeat split.
  - rewrite Hwalk. f_equal.
  - exists (rev rest). rewrite <- rev_app_distr, <- Hrev.
    now rewrite rev_involutive.
  - destruct Hfit as [-> | Hfit]; [now left | right; lia].
Qed.

Section Chunks.

Variable md5_hexdigest : string -> string.
Variable path_suffix : string -> string.
Variable config : Config.

Local Abbreviation make_chunk := (make_chunk md5_hexdigest path_suffix).
Local Abbreviation loop_body := (loop_body md5_hexdigest path_suffix config).
Local Abbreviation _create_chunks := (_create_chunks md5_hexdigest path_suffix config).

(** The loop started in any state whose buffer is [sd ++ fr], then the
    final flush. *)
Lemma loop_spans (path ftype : string) (lines : list string) :
  forall (st : Loop) (sd fr : list string),
    current_chunk st = sd ++ fr ->
    (let st' := fold_left (loop_body path ftype) lines st in
     if truthy (current_chunk st')
     then l_chunks st' ++ [make_chunk path ftype (current_chunk st')]
     else l_chunks st')
    = l_chunks st
      ++ List.map (fun g => make_chunk path ftype (span_lines g))
           (spans (chunk_size config) (chunk_overlap config) lines sd fr
                  (current_size st)).
Proof.
  induction lines as [|line lines IH]; intros st sd fr Hbuf.
  - simpl. rewrite Hbuf.
    destruct (truthy (sd ++ fr)); simpl; [reflexivity | now rewrite app_nil_r].
  - cbn [fold_left spans].
    destruct ((current_size st + len line >? chunk_size config)
              && truthy (sd ++ fr)) eqn:Hemit.
    + destruct (overlap_walk (chunk_overlap config) (rev (sd ++ fr)) [] 0)
        as [overlap_lines overlap_size] eqn:Hwalk.
      rewrite (IH _ overlap_lines [line]).
      * unfold Indexer.loop_body. rewrite Hbuf, Hemit, Hwalk. simpl.
        rewrite <- app_assoc. reflexivity.
      * unfold Indexer.loop_body. rewrite Hbuf, Hemit, Hwalk. reflexivity.
    + rewrite (IH _ sd (fr ++ [line])).
      * unfold Indexer.loop_body. rewrite Hbuf, Hemit. reflexivity.
      * unfold Indexer.loop_body. rewrite Hbuf, Hemit. simpl.
        now rewrite Hbuf, <- app_assoc.
Qed.

(** [_create_chunks] emits the buffers [chunk_spans] lists, in order. *)
Lemma create_chunks_spans (text path ftype : string) :
  _create_chunks text path ftype
  = List.map (fun g => make_chunk path ftype (span_lines g))
      (chunk_spans config text).
Proof.
  unfold Indexer._create_chunks, chunk_spans.
  exact (loop_spans path ftype (split NL text)
           {| l_chunks := []; current_chunk := []; current_size := 0 |}
           [] [] eq_refl).
Qed.

Lemma create_chunks_content (text path ftype : string) :
  List.map content (_create_chunks text path ftype)
  = List.map (fun g => join nl (span_lines g)) (chunk_spans config text).
Proof. rewrite create_chunks_spans, List.map_map. reflexivity. Qed.

End Chunks.

(** *** What holds of the buffers *)

Lemma chained_impl (P Q : list string -> list string -> Prop) gs :
  (forall prev sd, P prev sd -> Q prev sd) ->
  forall prev, chained P prev gs -> chained Q prev gs.
Proof.
  intros HPQ. induction gs as [|g gs IH]; intros prev; simpl; [trivial|].
  intros [Hg Hrest]. split; [now apply HPQ | now apply IH].
Qed.

Lemma chained_Forall (P : list string -> list string -> Prop) gs :
  forall prev, chained P prev gs ->
               Forall (fun g => exists before, P before (seed g)) gs.
Proof.
  induction gs as [|g gs IH]; intros prev; simpl; [constructor|].
  intros [Hg Hrest]. constructor; [now exists prev | now apply (IH _ Hrest)].
Qed.

Lemma spans_chained (size_limit overlap : Z) (lines : list string) :
  forall prev sd fr size,
    carried overlap prev sd ->
    chained (carried overlap) prev (spans size_limit overlap lines sd fr size).
Proof.
  induction lines as [|line lines IH]; intros prev sd fr size Hsd.
  - simpl. destruct (truthy (sd ++ fr)); simpl; auto.
  - simpl.
    destruct ((size + len line >? size_limit) && truthy (sd ++ fr)).
    + destruct (overlap_walk_trails overlap (sd ++ fr))
        as (next & Hwalk & Htrails & Hfit).
      rewrite Hwalk. simpl. split; [exact Hsd|].
      apply IH. split; assumption.
    + now apply IH.
Qed.

Lemma buffered_emitted (size_limit : Z) (sd fr : list string) :
  buffered size_limit sd fr -> truthy (sd ++ fr) = true ->
  emitted size_limit (mkSpan sd fr).
Proof.
  intros [[-> ->] | [[line ->] | [Hfr Hfit]]] Hbuf; unfold emitted; simpl.
  - discriminate.
  - split; [discriminate | right; now exists line].
  - split; [assumption | now left].
Qed.

Lemma spans_emitted (size_limit overlap : Z) (lines : list string) :
  forall sd fr size,
    size = total_len (sd ++ fr) ->
    buffered size_limit sd fr ->
    Forall (emitted size_limit) (spans size_limit overlap lines sd fr size).
Proof.
  induction lines as [|line lines IH]; intros sd fr size Hsize Hbuf.
  - simpl. destruct (truthy (sd ++ fr)) eqn:Hne; [|constructor].
    constructor; [now apply buffered_emitted | constructor].
  - simpl.
    destruct ((size + len line >? size_limit) && truthy (sd ++ fr)) eqn:Hemit.
    + apply andb_true_iff in Hemit as [_ Hne].
      destruct (overlap_walk_trails overlap (sd ++ fr))
        as (next & Hwalk & _ & _).
      rewrite Hwalk. constructor; [now apply buffered_emitted|].
      apply IH.
      * rewrite total_len_app. simpl. lia.
      * right. left. now exists line.
    + apply IH.
      * rewrite app_assoc, total_len_app. simpl. lia.
      * apply andb_false_iff in Hemit as [Hfit | Hempty].
        -- right. right. split; [now destruct fr|].
           rewrite app_assoc, total_len_app. simpl. lia.
        -- apply truthy_false, app_eq_nil in Hempty as [-> ->].
           right. left. now exists line.
Qed.

(** The lines the chunks do not inherit are the lines of the file. *)
Lemma spans_fresh (size_limit overlap : Z) (lines : list string) :
  forall sd fr size,
    concat (List.map fresh (spans size_limit overlap lines sd fr size))
    = fr ++ lines.
Proof.
  induction lines as [|line lines IH]; intros sd fr size.
  - simpl. destruct (truthy (sd ++ fr)) eqn:Hne; simpl; [reflexivity|].
    apply truthy_false, app_eq_nil in Hne as [_ ->]. reflexivity.
  - simpl.
    destruct ((size + len line >? size_limit) && truthy (sd ++ fr)).
    + destruct (overlap_walk overlap (rev (sd ++ fr)) [] 0) as [next next_size].
      simpl. now rewrite IH.
    + rewrite IH. now rewrite <- app_assoc.
Qed.

(** *** The chunks of a file *)

Section Emitted.

Variable md5_hexdigest : string -> string.
Variable path_suffix : string -> string.
Variable config : Config.

Local Abbreviation make_chunk := (make_chunk md5_hexdigest path_suffix).
Local Abbreviation _create_chunks := (_create_chunks md5_hexdigest path_suffix config).

Lemma chunk_spans_chained (text : string) :
  chained (carried (chunk_overlap config)) [] (chunk_spans config text).
Proof.
  apply spans_chained. split; [now exists [] | now left].
Qed.

Lemma chunk_spans_emitted (text : string) :
  Forall (emitted (chunk_size config)) (chunk_spans config text).
Proof.
  apply spans_emitted; [reflexivity | now left].
Qed.

(** C3, on the code: the empty file has the single line [""], which the
    loop buffers and the final flush emits, so [_create_chunks] returns
    one chunk, of empty content, where the specification has none. *)
Theorem empty_file_one_chunk (path ftype : string) :
  _create_chunks "" path ftype = [make_chunk path ftype [""]] /\
  List.map content (_create_chunks "" path ftype) = [""] /\
  ~ Stated.empty_file_no_chunk md5_hexdigest path_suffix config path ftype.
Proof.
  assert (H : _create_chunks "" path ftype = [make_chunk path ftype [""]]).
  { unfold Indexer._create_chunks. simpl. unfold loop_body. simpl.
    rewrite andb_false_r. reflexivity. }
  repeat split; [exact H | now rewrite H |].
  unfold Stated.empty_file_no_chunk. rewrite H. discriminate.
Qed.

(** C4: the chunks are the buffers [seed g ++ fresh g] in order, every
    seed is a trailing run of the buffer before it (none before the
    first), and the lines that are not seeds, taken chunk after chunk,
    are the lines of the file. *)
Theorem chunks_roundtrip (text path ftype : string) :
  List.map content (_create_chunks text path ftype)
  = List.map (fun g => join nl (seed g ++ fresh g)) (chunk_spans config text) /\
  chained trails [] (chunk_spans config text) /\
  concat (List.map fresh (chunk_spans config text)) = split NL text.
Proof.
  split; [apply create_chunks_content|]. split.
  - apply (chained_impl (carried (chunk_overlap config))).
    + now intros prev sd [Htrails _].
    + apply chunk_spans_chained.
  - unfold chunk_spans. now rewrite spans_fresh.
Qed.

(** C2, as the code has it: a chunk is within [chunk_size] when its
    lines are counted without the newlines that join them (its content
    is longer by one character per line after the first), unless it is
    the seed, which totals at most [chunk_overlap], followed by a
    single line of the file; that line is taken whatever its length. *)
Theorem chunk_lines_within_size (text path ftype : string) :
  List.map content (_create_chunks text path ftype)
  = List.map (fun g => join nl (seed g ++ fresh g)) (chunk_spans config text) /\
  Forall
    (fun g =>
       len (join nl (seed g ++ fresh g))
       = total_len (seed g ++ fresh g)
         + Z.of_nat (length (seed g ++ fresh g)) - 1 /\
       (total_len (seed g ++ fresh g) <= chunk_size config \/
        exists line,
          fresh g = [line] /\
          total_len (seed g) <= Z.max 0 (chunk_overlap config)))
    (chunk_spans config text).
Proof.
  split; [apply create_chunks_content|].
  pose proof (chunk_spans_emitted text) as Hemitted.
  pose proof (chained_Forall _ _ _ (chunk_spans_chained text)) as Hseeds.
  induction Hemitted as [|g gs [Hown Hsize] _ IH];
    [constructor | inversion Hseeds as [|? ? Hseed Hrest]; subst].
  constructor; [|now apply IH].
  split.
  - apply len_join. destruct (fresh g); [congruence|].
    intros Hnil. apply app_eq_nil in Hnil as [_ Hnil]. discriminate.
  - destruct Hsize as [Hfit | [line Hline]]; [now left | right].
    exists line. split; [assumption|].
    destruct Hseed as (before & _ & [-> | Hfit]); simpl; lia.
Qed.

(** C5, as the code has it: with [chunk_overlap = 0] the walk back stops
    at the first line that has a character, so what a chunk inherits is a
    trailing run of empty lines of the chunk before it.  The run need not
    be empty: consecutive chunks share no line that has a character, but
    they share the empty lines of the run and, when there are two or
    more, the newlines between them, one fewer than the lines. *)
Theorem zero_overlap_seed_blank (text path ftype : string) :
  chunk_overlap config = 0 ->
  List.map content (_create_chunks text path ftype)
  = List.map (fun g => join nl (seed g ++ fresh g)) (chunk_spans config text) /\
  chained
    (fun prev sd =>
       trails prev sd /\ total_len sd = 0 /\
       Forall (fun line => line = EmptyString) sd)
    [] (chunk_spans config text) /\
  Forall
    (fun g =>
       seed g = repeat EmptyString (length (seed g)) /\
       begins_with (join nl (seed g ++ fresh g)) (overlap_text g) /\
       len (overlap_text g) = Z.max 0 (Z.of_nat (length (seed g)) - 1))
    (chunk_spans config text).
Proof.
  intros Hzero. split; [apply create_chunks_content|].
  assert (Hblank : forall sd,
            (sd = [] \/ total_len sd <= chunk_overlap config) ->
            total_len sd = 0 /\ Forall (fun line => line = EmptyString) sd).
  { intros sd Hfit. rewrite Hzero in Hfit.
    assert (Hle : total_len sd <= 0) by (destruct Hfit as [-> | ?]; simpl; lia).
    pose proof (total_len_nonneg sd).
    split; [lia | now apply total_len_zero]. }
  split.
  - apply (chained_impl (carried (chunk_overlap config)));
      [|apply chunk_spans_chained].
    intros prev sd [Htrails Hfit]. split; [assumption | now apply Hblank].
  - eapply List.Forall_impl;
      [|exact (chained_Forall _ _ _ (chunk_spans_chained text))].
    intros g (before & _ & Hfit). apply Hblank in Hfit as [Hzero' Hall].
    split; [|split].
    + clear Hzero'. induction Hall as [|line sd -> _ IH]; [reflexivity|].
      cbn [length repeat]. now rewrite <- IH.
    + apply join_begins.
    + unfold overlap_text. destruct (seed g) as [|line sd] eqn:Hseed.
      * reflexivity.
      * rewrite len_join by discriminate. rewrite Hzero'. cbn [length]. lia.
Qed.

(** C6, as the code has it: with [chunk_overlap > 0] every chunk after
    the first starts with its seed, the seed is a trailing run of the
    lines of the chunk before it, whose content ends with it, and the
    lines of the seed total at most [chunk_overlap] characters, the
    newlines between them not counted. *)
Theorem overlap_is_trailing_span (text path ftype : string) :
  0 < chunk_overlap config ->
  List.map content (_create_chunks text path ftype)
  = List.map (fun g => join nl (seed g ++ fresh g)) (chunk_spans config text) /\
  chained
    (fun prev sd =>
       trails prev sd /\
       ends_with (join nl prev) (join nl sd) /\
       total_len sd <= chunk_overlap config)
    [] (chunk_spans config text) /\
  Forall
    (fun g =>
       begins_with (join nl (seed g ++ fresh g)) (overlap_text g) /\
       len (overlap_text g)
       <= chunk_overlap config + Z.max 0 (Z.of_nat (length (seed g)) - 1))
    (chunk_spans config text).
Proof.
  intros Hpos. split; [apply create_chunks_content|]. split.
  - apply (chained_impl (carried (chunk_overlap config)));
      [|apply chunk_spans_chained].
    intros prev sd [[front ->] Hfit]. repeat split.
    + now exists front.
    + apply join_ends.
    + destruct Hfit as [-> | ?]; simpl; lia.
  - eapply List.Forall_impl;
      [|exact (chained_Forall _ _ _ (chunk_spans_chained text))].
    intros g (before & _ & Hfit). split; [apply join_begins|].
    unfold overlap_text. destruct (seed g) as [|line sd] eqn:Hseed.
    + change (len (join nl [])) with 0. cbn [length]. lia.
    + rewrite len_join by discriminate.
      destruct Hfit as [Hnil | Hfit]; [discriminate | lia].
Qed.

End Emitted.

(** *** The statements of the specification, tested *)

Import Samples.

(** C2: with [chunk_size = 3] the file of the two lines [ab] and [c],
    none longer than 3, is one chunk of 4 characters. *)
Lemma content_exceeds_chunk_size :
  List.map content
    (_create_chunks digest suffix (sized 3 0) (file ["ab"; "c"]) "src/a.py" "code")
  = [file ["ab"; "c"]] /\
  ~ Stated.content_within_chunk_size digest suffix (sized 3 0)
      (file ["ab"; "c"]) "src/a.py" "code".
Proof.
  split; [reflexivity|].
  unfold Stated.content_within_chunk_size. intros H.
  apply Forall_inv in H. destruct H as [H | H].
  - vm_compute in H. now apply H.
  - vm_compute in H.
    inversion H as [? ? Hlt | ? ? Hrest]; subst; [discriminate|].
    inversion Hrest as [? ? Hlt | ? ? Hnone]; subst; [discriminate|].
    inversion Hnone.
Qed.

(** C2 again, through the seed: with [chunk_size = 10] and
    [chunk_overlap = 5] the second chunk is the seed [bbbbb] and the line
    [cccccccc], 13 characters of lines though no line exceeds 10. *)
Example seed_and_line_exceed_chunk_size :
  chunk_spans (sized 10 5) (file ["aaaaa"; "bbbbb"; "cccccccc"])
  = [ mkSpan [] ["aaaaa"; "bbbbb"]; mkSpan ["bbbbb"] ["cccccccc"] ].
Proof. reflexivity. Qed.

(** C5: with [chunk_overlap = 0] the empty second line of the file is
    the last line of the first chunk and the first line of the second. *)
Lemma zero_overlap_shares_blank_line :
  chunk_overlap (sized 3 0) = 0 /\
  List.map content
    (_create_chunks digest suffix (sized 3 0) (file ["abc"; ""; "def"])
                    "src/a.py" "code")
  = [file ["abc"; ""]; file [""; "def"]] /\
  ~ Stated.no_line_shared (sized 3 0) (file ["abc"; ""; "def"]).
Proof.
  repeat split.
  unfold Stated.no_line_shared. intros H.
  apply Forall_inv_tail, Forall_inv in H. discriminate H.
Qed.

(** C5 again: with two empty lines at the end of the first chunk the two
    chunks share both and the newline between them. *)
Example zero_overlap_shares_newline :
  List.map content
    (_create_chunks digest suffix (sized 3 0) (file ["abc"; ""; ""; "def"])
                    "src/a.py" "code")
  = [file ["abc"; ""; ""]; file [""; ""; "def"]] /\
  List.map overlap_text
    (chunk_spans (sized 3 0) (file ["abc"; ""; ""; "def"]))
  = [""; nl].
Proof. split; reflexivity. Qed.

(** C6: with [chunk_overlap = 2] the second chunk starts with the two
    lines [a] and [b] of the first, three characters with the newline
    that joins them. *)
Lemma overlap_text_exceeds_overlap :
  0 < chunk_overlap (sized 5 2) /\
  List.map content
    (_create_chunks digest suffix (sized 5 2) (file ["xxx"; "a"; "b"; "zzz"])
                    "src/a.py" "code")
  = [file ["xxx"; "a"; "b"]; file ["a"; "b"; "zzz"]] /\
  ~ Stated.overlap_text_within (sized 5 2) (file ["xxx"; "a"; "b"; "zzz"]).
Proof.
  repeat split.
  unfold Stated.overlap_text_within. intros H.
  apply Forall_inv_tail, Forall_inv in H. vm_compute in H. now apply H.
Qed.

(** The theorems applied to these inputs. *)

Lemma zero_overlap_seed_blank_witness :
  chunk_overlap (sized 3 0) = 0 /\
  chained
    (fun prev sd =>
       trails prev sd /\ total_len sd = 0 /\
       Forall (fun line => line = EmptyString) sd)
    [] (chunk_spans (sized 3 0) (file ["abc"; ""; "def"])).
Proof.
  split; [reflexivity|].
  apply (proj1 (proj2 (zero_overlap_seed_blank digest suffix (sized 3 0)
                         (file ["abc"; ""; "def"]) "src/a.py" "code"
                         eq_refl))).
Defined.

Lemma overlap_is_trailing_span_witness :
  0 < chunk_overlap (sized 5 2) /\
  chained
    (fun prev sd =>
       trails prev sd /\
       ends_with (join nl prev) (join nl sd) /\
       total_len sd <= chunk_overlap (sized 5 2))
    [] (chunk_spans (sized 5 2) (file ["xxx"; "a"; "b"; "zzz"])).
Proof.
  split; [reflexivity|].
  apply (overlap_is_trailing_span digest suffix (sized 5 2)
           (file ["xxx"; "a"; "b"; "zzz"]) "src/a.py" "code").
  reflexivity.
Defined.

End ChunkerFacts.

(** ** The vector store *)

Module VectorStoreFacts.

Import Indexer VectorStore.

Lemma StronglySorted_front {A} (R : A -> A -> Prop) (a b : list A) :
  StronglySorted R (a ++ b) -> StronglySorted R a.
Proof.
  induction a as [|x a IH]; simpl; intros H; [constructor|].
  inversion H as [|? ? Hrest Hall]; subst.
  constructor; [now apply IH|].
  now apply List.Forall_app in Hall as [Ha _].
Qed.

Lemma StronglySorted_drop {A} (R : A -> A -> Prop) (a b : list A) (x : A) :
  StronglySorted R (a ++ x :: b) -> StronglySorted R (a ++ b).
Proof.
  induction a as [|y a IH]; simpl; intros H.
  - now inversion H.
  - inversion H as [|? ? Hrest Hall]; subst.
    constructor; [now apply IH|].
    apply List.Forall_app in Hall as [Ha Hb].
    apply List.Forall_app. split; [assumption | now inversion Hb].
Qed.

Lemma lookup_map {A B} (f : A -> B) (l : list A) :
  forall (i : nat) (x : A), l !! i = Some x -> List.map f l !! i = Some (f x).
Proof.
  induction l as [|y l IH]; intros [|i] x; simpl; try discriminate.
  - now intros [= ->].
  - apply IH.
Qed.

Section Store.

Variable Vec : Type.
Variable Score : Type.
Variable encode : string -> Vec.
Variable normalize_L2 : Vec -> Vec.
Variable astype_float32 : Vec -> Vec.
Variable index_search : list Vec -> Vec -> Z -> list (Score * Z).

(** [score_ge a b]: the similarity [a] is at least [b]. *)
Variable score_ge : Score -> Score -> Prop.

Local Abbreviation build := (build Vec encode normalize_L2 astype_float32).
Local Abbreviation rebuild := (rebuild Vec encode normalize_L2 astype_float32).
Local Abbreviation embed := (embed Vec encode normalize_L2 astype_float32).
Local Abbreviation search :=
  (search Vec Score encode normalize_L2 astype_float32 index_search).
Local Abbreviation collect := (collect Score).
Local Abbreviation passes := (passes Score).
Local Abbreviation from_candidate := (from_candidate Score).

Section Loop.

Variable self_chunks : list Chunk.
Variable top_k : Z.
Variable filter_type : string.

Lemma collect_length (candidates : list (Score * Z)) :
  forall results,
    Z.of_nat (length results) < top_k ->
    Z.of_nat (length (collect self_chunks top_k filter_type candidates results))
    <= top_k.
Proof.
  induction candidates as [|[score idx] rest IH]; intros results Hlt;
    simpl; [lia|].
  destruct ((idx <? 0) || (idx >=? Z.of_nat (length self_chunks)));
    [now apply IH|].
  destruct (self_chunks !! Z.to_nat idx) as [chunk|]; [|now apply IH].
  destruct (negb (String.eqb filter_type "all")
            && negb (String.eqb (file_type chunk) filter_type));
    [now apply IH|].
  destruct (Z.of_nat (length (results ++ [mkResult chunk score])) >=? top_k)
    eqn:Hfull.
  - rewrite length_app in *. simpl in *. lia.
  - apply IH. lia.
Qed.

Lemma collect_passes (candidates : list (Score * Z)) :
  forall results,
    Forall (passes filter_type) results ->
    Forall (passes filter_type)
           (collect self_chunks top_k filter_type candidates results).
Proof.
  induction candidates as [|[score idx] rest IH]; intros results Hall;
    simpl; [assumption|].
  destruct ((idx <? 0) || (idx >=? Z.of_nat (length self_chunks)));
    [now apply IH|].
  destruct (self_chunks !! Z.to_nat idx) as [chunk|]; [|now apply IH].
  destruct (negb (String.eqb filter_type "all")
            && negb (String.eqb (file_type chunk) filter_type)) eqn:Hskip;
    [now apply IH|].
  assert (Hnew : Forall (passes filter_type) (results ++ [mkResult chunk score])).
  { apply List.Forall_app. split; [assumption|]. constructor; [|constructor].
    unfold passes. simpl.
    apply andb_false_iff in Hskip as [Hall' | Hsame].
    - left. apply negb_false_iff in Hall'. now apply String.eqb_eq.
    - right. apply negb_false_iff in Hsame. now apply String.eqb_eq. }
  destruct (Z.of_nat (length (results ++ [mkResult chunk score])) >=? top_k);
    [assumption | now apply IH].
Qed.

Lemma collect_sorted (candidates : list (Score * Z)) :
  forall results,
    StronglySorted score_ge
      (List.map r_score results ++ List.map fst candidates) ->
    StronglySorted score_ge
      (List.map r_score
         (collect self_chunks top_k filter_type candidates results)).
Proof.
  induction candidates as [|[score idx] rest IH]; intros results Hsorted;
    simpl in *; [now rewrite app_nil_r in Hsorted|].
  pose proof (StronglySorted_drop _ _ _ _ Hsorted) as Hdrop.
  destruct ((idx <? 0) || (idx >=? Z.of_nat (length self_chunks)));
    [now apply IH|].
  destruct (self_chunks !! Z.to_nat idx) as [chunk|]; [|now apply IH].
  destruct (negb (String.eqb filter_type "all")
            && negb (String.eqb (file_type chunk) filter_type));
    [now apply IH|].
  assert (Hnew : StronglySorted score_ge
            (List.map r_score (results ++ [mkResult chunk score])
             ++ List.map fst rest)).
  { rewrite List.map_app, <- app_assoc. exact Hsorted. }
  destruct (Z.of_nat (length (results ++ [mkResult chunk score])) >=? top_k);
    [now apply StronglySorted_front in Hnew | now apply IH].
Qed.

Lemma collect_from_candidate (candidates : list (Score * Z)) :
  forall seen results,
    Forall (from_candidate self_chunks (seen ++ candidates)) results ->
    Forall (from_candidate self_chunks (seen ++ candidates))
           (collect self_chunks top_k filter_type candidates results).
Proof.
  induction candidates as [|[score idx] rest IH]; intros seen results Hall;
    simpl; [assumption|].
  assert (Hshift : seen ++ (score, idx) :: rest
                   = (seen ++ [(score, idx)]) ++ rest)
    by now rewrite <- app_assoc.
  rewrite Hshift in *.
  destruct ((idx <? 0) || (idx >=? Z.of_nat (length self_chunks))) eqn:Hbad;
    [now apply IH|].
  destruct (self_chunks !! Z.to_nat idx) as [chunk|] eqn:Hchunk;
    [|now apply IH].
  destruct (negb (String.eqb filter_type "all")
            && negb (String.eqb (file_type chunk) filter_type));
    [now apply IH|].
  assert (Hnew : Forall (from_candidate self_chunks ((seen ++ [(score, idx)]) ++ rest))
                        (results ++ [mkResult chunk score])).
  { apply List.Forall_app. split; [assumption|]. constructor; [|constructor].
    exists idx. simpl. repeat split.
    - apply in_or_app. left. apply in_or_app. right. now left.
    - apply orb_false_iff in Hbad as [Hneg _]. lia.
    - apply orb_false_iff in Hbad as [_ Hlen]. lia.
    - assumption. }
  destruct (Z.of_nat (length (results ++ [mkResult chunk score])) >=? top_k);
    [assumption | now apply IH].
Qed.

End Loop.

(** *** [build] and [rebuild] *)

Lemma build_aligned (self : Store Vec) (cs : list Chunk) :
  aligned Vec encode normalize_L2 astype_float32 self ->
  aligned Vec encode normalize_L2 astype_float32 (build self cs).
Proof.
  intros Hself. unfold VectorStore.build.
  destruct cs as [|c cs]; [exact Hself|].
  cbn [truthy negb]. unfold aligned. cbn [index chunks]. split.
  - cbn [app]. now rewrite !List.length_map.
  - intros i chunk Hi. cbn [app].
    rewrite !List.map_map.
    now apply (lookup_map (fun x => astype_float32 (normalize_L2 (encode (content x))))).
Qed.

(** The rows [build] makes of a list of chunks. *)
Local Abbreviation rows_for cs :=
  (List.map (fun chunk : Chunk => embed (content chunk)) cs).

(** The index of a store holds, in order, the embeddings of the contents
    of its chunks, and a store that holds no chunk has no index. *)
Lemma reachable_exact (self : Store Vec) :
  reachable Vec encode normalize_L2 astype_float32 self ->
  index self
  = if truthy (chunks self)
    then Some (rows_for (chunks self))
    else None.
Proof.
  assert (Hbuild : forall st cs,
            cs <> [] ->
            build st cs
            = {| index := Some (rows_for cs); chunks := cs |}).
  { intros st [|c cs] Hcs; [congruence|].
    unfold VectorStore.build. cbn [truthy negb app].
    now rewrite !List.map_map. }
  induction 1 as [|self cs _ IH|self cs _ _].
  - reflexivity.
  - destruct cs as [|c cs]; [exact IH|].
    now rewrite Hbuild.
  - unfold VectorStore.rebuild. destruct cs as [|c cs]; [reflexivity|].
    now rewrite Hbuild.
Qed.

(** C8: after [build] from a list that is not empty, and after [rebuild]
    from any list, the store holds that list and an index of the
    embeddings of its contents, in the order of the list ([build] from
    the empty list changes nothing).  So for every store made by [build]
    and [rebuild] the index has as many rows as the stored list has
    chunks and row [i] is the embedding of chunk [i]; and every result of
    a search is made from a candidate [(score, i)] of the index: it is
    chunk [i] of the stored list, whose embedding is row [i], with the
    score [score]. *)
Theorem store_rows_aligned (self : Store Vec) (cs : list Chunk) :
  reachable Vec encode normalize_L2 astype_float32 self ->
  (cs <> [] ->
   build self cs = {| index := Some (rows_for cs); chunks := cs |}) /\
  build self [] = self /\
  rebuild self cs
  = {| index := if truthy cs then Some (rows_for cs) else None;
       chunks := cs |} /\
  aligned Vec encode normalize_L2 astype_float32 self /\
  aligned Vec encode normalize_L2 astype_float32 (build self cs) /\
  aligned Vec encode normalize_L2 astype_float32 (rebuild self cs) /\
  match index self with
  | None => chunks self = []
  | Some rows =>
      rows = rows_for (chunks self) /\
      ntotal Vec rows = Z.of_nat (length (chunks self)) /\
      forall query top_k filter_type,
        Forall
          (fun r =>
             exists idx,
               In (r_score r, idx)
                  (index_search rows
                     (astype_float32 (normalize_L2 (encode query)))
                     (Z.min (top_k * 3) (ntotal Vec rows))) /\
               0 <= idx < ntotal Vec rows /\
               chunks self !! Z.to_nat idx = Some (r_chunk r) /\
               rows !! Z.to_nat idx = Some (embed (content (r_chunk r))))
          (search self query top_k filter_type)
  end.
Proof.
  intros Hreach.
  assert (Hbuild : forall st cs',
            cs' <> [] ->
            build st cs'
            = {| index := Some (rows_for cs'); chunks := cs' |}).
  { intros st [|c cs'] Hcs; [congruence|].
    unfold VectorStore.build. cbn [truthy negb app].
    now rewrite !List.map_map. }
  assert (Haligned : forall st,
            reachable Vec encode normalize_L2 astype_float32 st ->
            aligned Vec encode normalize_L2 astype_float32 st).
  { intros st Hst. induction Hst as [|st cs' _ IH|st cs' _ _].
    - reflexivity.
    - now apply build_aligned.
    - apply build_aligned. reflexivity. }
  split; [apply Hbuild|]. split; [reflexivity|]. split.
  { unfold VectorStore.rebuild. destruct cs as [|c cs]; [reflexivity|].
    now rewrite Hbuild. }
  split; [now apply Haligned|].
  split; [apply Haligned; now constructor|].
  split; [apply Haligned; now constructor|].
  pose proof (reachable_exact self Hreach) as Hexact.
  destruct (index self) as [rows|] eqn:Hindex.
  - destruct (chunks self) as [|c rest] eqn:Hchunks; [discriminate|].
    cbn [truthy] in Hexact.
    assert (Hrows : rows = rows_for (c :: rest)) by congruence.
    subst rows. clear Hexact.
    split; [reflexivity|]. split.
    { unfold ntotal. now rewrite List.length_map. }
    intros query top_k filter_type. unfold VectorStore.search.
    rewrite Hindex, Hchunks.
    destruct (ntotal Vec (rows_for (c :: rest)) =? 0); [constructor|].
    eapply List.Forall_impl;
      [|apply (collect_from_candidate (c :: rest) top_k filter_type _ [] []);
        constructor].
    intros r (idx & Hin & Hrange & Hchunk). exists idx.
    repeat split; try assumption; try lia.
    + unfold ntotal. rewrite List.length_map. lia.
    + now apply (lookup_map (fun chunk => embed (content chunk))).
  - destruct (chunks self); [reflexivity | discriminate].
Qed.

(** *** [search] *)

Section Ranked.

Hypothesis score_ge_trans :
  forall a b c, score_ge a b -> score_ge b c -> score_ge a c.

(** What is assumed of the nearest-neighbour index: candidates come
    most similar first, and no more of them than were asked for. *)
Hypothesis candidates_descending :
  forall rows q k, Sorted score_ge (List.map fst (index_search rows q k)).
Hypothesis candidates_at_most :
  forall rows q k, (length (index_search rows q k) <= Z.to_nat k)%nat.

(** C1: a search for [top_k] results returns at most [top_k] of
    them, each of the category asked for unless that is ["all"], in
    descending order of score. *)
Theorem search_top_k_filtered_descending
    (self : Store Vec) (query : string) (top_k : Z) (filter_type : string) :
  0 <= top_k ->
  let results := search self query top_k filter_type in
  Z.of_nat (length results) <= top_k /\
  (filter_type <> "all" ->
   Forall (fun r => file_type (r_chunk r) = filter_type) results) /\
  StronglySorted score_ge (List.map r_score results).
Proof.
  intros Hk. unfold VectorStore.search.
  destruct (index self) as [rows|];
    [|cbn; repeat split; [lia | constructor | constructor]].
  destruct (ntotal Vec rows =? 0) eqn:Hrows;
    [cbn; repeat split; [lia | constructor | constructor]|].
  set (candidates := index_search rows _ _).
  cbv zeta. split; [|split].
  - destruct (Z.eq_dec top_k 0) as [-> | Hpos].
    + pose proof (candidates_at_most rows
                    (astype_float32 (normalize_L2 (encode query)))
                    (Z.min (0 * 3) (ntotal Vec rows))) as Hfew.
      fold candidates in Hfew.
      assert (Hzero : Z.to_nat (Z.min (0 * 3) (ntotal Vec rows)) = 0%nat).
      { unfold ntotal. lia. }
      rewrite Hzero in Hfew.
      destruct candidates; [cbn; lia | cbn in Hfew; lia].
    + apply collect_length. cbn. lia.
  - intros Hfilter.
    eapply List.Forall_impl;
      [|apply (collect_passes (chunks self) top_k filter_type candidates []);
        constructor].
    intros r [Hall | Hsame]; [contradiction | assumption].
  - apply collect_sorted. cbn [List.map app].
    apply Sorted_StronglySorted; [exact score_ge_trans|].
    apply candidates_descending.
Qed.

End Ranked.

End Store.

Import Samples.

Lemma ranking_descending (n : nat) :
  Sorted Z.ge (List.map fst (firstn n ranking)).
Proof.
  unfold ranking.
  destruct n as [|[|[|[|[|n]]]]]; cbn; repeat constructor; lia.
Qed.

Lemma ranking_at_most (n : nat) : (length (firstn n ranking) <= n)%nat.
Proof. apply firstn_le_length. Qed.

(** C1 on the sample store: the best candidate is a code chunk, the
    search for documentation passes over it. *)
Lemma search_top_k_filtered_descending_witness :
  let results :=
    search Z Z len same same knn
           (rebuild Z len same same init pieces) "tailtown" 1 "documentation" in
  List.map (fun r => file_path (r_chunk r)) results = ["docs/README.md"] /\
  0 <= 1 /\
  Z.of_nat (length results) <= 1 /\
  StronglySorted Z.ge (List.map r_score results).
Proof.
  split; [reflexivity|]. split; [lia|].
  pose proof (search_top_k_filtered_descending Z Z len same same knn Z.ge
                ltac:(intros; lia)
                (fun _ _ k => ranking_descending (Z.to_nat k))
                (fun _ _ k => ranking_at_most (Z.to_nat k))
                (rebuild Z len same same init pieces) "tailtown" 1 "documentation"
                ltac:(lia)) as (Hlen & _ & Hsorted).
  split; [exact Hlen | exact Hsorted].
Defined.

(** C8 on the sample store. *)
Lemma store_rows_aligned_witness :
  aligned Z len same same (rebuild Z len same same init pieces).
Proof.
  apply (store_rows_aligned Z Z len same same knn
           (rebuild Z len same same init pieces) []).
  apply reach_rebuild, reach_init.
Defined.

End VectorStoreFacts.

(** ** The index pass and the files on disk *)

Module IndexFacts.

Import Indexer PyStrFacts ChunkerFacts.

Section Pass.

Variable md5_hexdigest : string -> string.
Variable path_suffix : string -> string.
Variable glob : string -> list string.
Variable fs : string -> option DiskFile.
Variable config : Config.

Local Abbreviation _create_chunks := (_create_chunks md5_hexdigest path_suffix config).
Local Abbreviation _index_file := (_index_file md5_hexdigest path_suffix fs config).
Local Abbreviation index_one := (index_one md5_hexdigest path_suffix fs config).
Local Abbreviation index_pattern := (index_pattern md5_hexdigest path_suffix glob fs config).
Local Abbreviation index_group := (index_group md5_hexdigest path_suffix glob fs config).
Local Abbreviation index_all := (index_all md5_hexdigest path_suffix glob fs config).
Local Abbreviation get_file_content := (get_file_content path_suffix fs).

Lemma create_chunks_path (text path ftype : string) :
  Forall (fun c => file_path c = path) (_create_chunks text path ftype).
Proof.
  rewrite create_chunks_spans. apply List.Forall_forall. intros c Hin.
  apply in_map_iff in Hin as (g & <- & _). reflexivity.
Qed.

Lemma untouched_refl (path : string) (p : Pass) : untouched path p p.
Proof.
  repeat split.
  - exists []. now rewrite app_nil_r.
  - exists []. now rewrite app_nil_r.
Qed.

Lemma untouched_trans (path : string) (p q r : Pass) :
  untouched path p q -> untouched path q r -> untouched path p r.
Proof.
  intros (Hfi & (added & Hch & Hadded) & (logged & Hlog & Hlogged))
         (Hfi' & (added' & Hch' & Hadded') & (logged' & Hlog' & Hlogged')).
  repeat split.
  - congruence.
  - exists (added ++ added'). split.
    + now rewrite Hch', Hch, app_assoc.
    + apply List.Forall_app. now split.
  - exists (logged ++ logged'). split.
    + now rewrite Hlog', Hlog, app_assoc.
    + apply List.Forall_app. now split.
Qed.

Lemma untouched_step (path : string) (p : Pass) (added : list Chunk)
    (fi : gmap string FileInfo) (st : Stats) :
  fi !! path = files_index (p_indexer p) !! path ->
  Forall (fun c => file_path c <> path) added ->
  untouched path p
    {| p_indexer := {| chunks := chunks (p_indexer p) ++ added;
                       files_index := fi |};
       p_stats := st;
       p_log := p_log p |}.
Proof.
  intros Hfi Hadded. split; [exact Hfi|]. split.
  - now exists added.
  - exists []. cbn. now rewrite app_nil_r.
Qed.

Lemma untouched_fold {A} (step : Pass -> A -> Pass) (path : string) (xs : list A) :
  (forall p x, untouched path p (step p x)) ->
  forall p, untouched path p (fold_left step xs p).
Proof.
  intros Hstep. induction xs as [|x xs IH]; intros p; simpl.
  - apply untouched_refl.
  - eapply untouched_trans; [apply Hstep | apply IH].
Qed.

(** What an iteration does to the indexer and to the log does not
    depend on the statistics. *)
Lemma index_one_same (ftype : string) (p p' : Pass) (path : string) :
  p_indexer p = p_indexer p' /\ p_log p = p_log p' ->
  p_indexer (index_one ftype p path) = p_indexer (index_one ftype p' path) /\
  p_log (index_one ftype p path) = p_log (index_one ftype p' path).
Proof.
  destruct p as [self st lg], p' as [self' st' lg']. cbn.
  intros [<- <-]. unfold Indexer.index_one. cbn.
  destruct (_should_exclude config path); [now split|].
  destruct (_index_file self path ftype) as [[after cs]|e]; [|now split].
  destruct (getsize fs path); now split.
Qed.

Lemma index_files_same (ftype : string) (files : list string) :
  forall p p',
    p_indexer p = p_indexer p' /\ p_log p = p_log p' ->
    p_indexer (fold_left (index_one ftype) files p)
    = p_indexer (fold_left (index_one ftype) files p') /\
    p_log (fold_left (index_one ftype) files p)
    = p_log (fold_left (index_one ftype) files p').
Proof.
  induction files as [|path files IH]; intros p p' Hsame; simpl;
    [assumption|].
  now apply IH, index_one_same.
Qed.

(** *** A file that does not decode *)

Section DecodeFailure.

Variable path : string.
Variable f : DiskFile.
Hypothesis on_disk : fs path = Some f.
Hypothesis not_text : d_read f = DecodeFails.

Lemma index_file_decode_fails (self : Indexer) (ftype : string) :
  _index_file self path ftype = Return (self, []).
Proof.
  unfold Indexer._index_file, read_text. now rewrite on_disk, not_text.
Qed.

(** The iteration on the file changes neither the indexer nor the
    log. *)
Lemma index_one_decode_fails (ftype : string) (p : Pass) :
  p_indexer (index_one ftype p path) = p_indexer p /\
  p_log (index_one ftype p path) = p_log p.
Proof.
  unfold Indexer.index_one.
  destruct (_should_exclude config path); [now split|].
  rewrite index_file_decode_fails. unfold getsize. rewrite on_disk.
  cbn. rewrite app_nil_r. destruct p as [[cs fi] st lg]. now split.
Qed.

(** The iteration on any file leaves [path] alone. *)
Lemma index_one_untouched (ftype : string) (p : Pass) (other : string) :
  untouched path p (index_one ftype p other).
Proof.
  destruct (String.eqb_spec other path) as [-> | Hother].
  - destruct (index_one_decode_fails ftype p) as [Hself Hlog].
    unfold untouched. rewrite Hself, Hlog. apply untouched_refl.
  - assert (Hwarn : forall q e,
              untouched path p q ->
              untouched path p (warn q (WarnFailedToIndex other e))).
    { intros q e (Hfi & Hch & (logged & Hlog & Hlogged)).
      repeat split; [exact Hfi | exact Hch |].
      exists (logged ++ [WarnFailedToIndex other e]). split.
      - cbn. now rewrite Hlog, app_assoc.
      - apply List.Forall_app. split; [assumption|].
        constructor; [exact Hother | constructor]. }
    unfold Indexer.index_one.
    destruct (_should_exclude config other); [apply untouched_refl|].
    unfold Indexer._index_file.
    destruct (read_text fs other) as [text| |].
    + destruct (getmtime fs other) as [modified|e];
        [|apply Hwarn, untouched_refl].
      assert (Hnew : forall st,
                untouched path p
                  {| p_indexer :=
                       {| chunks := chunks (p_indexer p)
                                    ++ _create_chunks text other ftype;
                          files_index :=
                            <[other := {| fi_path := other;
                                          fi_type := ftype;
                                          fi_size := len text;
                                          fi_modified := modified;
                                          fi_language :=
                                            _detect_language path_suffix other |}]>
                              (files_index (p_indexer p)) |};
                     p_stats := st;
                     p_log := p_log p |}).
      { intros st. apply untouched_step.
        - now apply lookup_insert_ne.
        - eapply List.Forall_impl; [|apply create_chunks_path].
          cbn. intros c ->. exact Hother. }
      destruct (getsize fs other) as [size|e];
        [apply Hnew | apply Hwarn, Hnew].
    + destruct (getsize fs other) as [size|e];
        [|apply Hwarn]; now apply untouched_step.
    + apply Hwarn, untouched_refl.
Qed.

Lemma index_all_untouched (self : Indexer) :
  untouched path
    {| p_indexer := self; p_stats := empty_stats; p_log := [] |}
    (fold_left index_group (index_patterns config)
       {| p_indexer := self; p_stats := empty_stats; p_log := [] |}).
Proof.
  apply untouched_fold. intros p [ftype patterns].
  apply untouched_fold. intros q pattern.
  apply untouched_fold. intros r other.
  apply index_one_untouched.
Qed.

(** C7, as the code has it: a file that does not decode is passed
    over in silence.  Its iteration changes neither the chunks, nor
    the registry, nor the log; the files after it are indexed as if
    it had not been met; and a whole pass leaves the entry of the
    registry for its path as it was, adds no chunk of that path and
    logs nothing about it. *)
Theorem decode_failure_skipped (self : Indexer) :
  (forall ftype p,
     p_indexer (index_one ftype p path) = p_indexer p /\
     p_log (index_one ftype p path) = p_log p) /\
  (forall ftype files_before files_after p,
     let q := fold_left (index_one ftype)
                (files_before ++ path :: files_after) p in
     let q' := fold_left (index_one ftype)
                 (files_before ++ files_after) p in
     p_indexer q = p_indexer q' /\ p_log q = p_log q') /\
  (let '(after, _, log) := index_all self in
   files_index after !! path = files_index self !! path /\
   (exists added,
      chunks after = chunks self ++ added /\
      Forall (fun c => file_path c <> path) added) /\
   Forall (fun r => ~ log_names r path) log).
Proof.
  split; [apply index_one_decode_fails|]. split.
  - intros ftype files_before files_after p. cbv zeta.
    rewrite !fold_left_app. cbn [fold_left].
    apply index_files_same; apply index_one_decode_fails.
  - unfold Indexer.index_all.
    destruct (index_all_untouched self)
      as (Hfi & Hadded & (logged & Hlog & Hlogged)).
    cbn in Hfi, Hadded, Hlog. repeat split; [exact Hfi | exact Hadded |].
    rewrite Hlog. apply List.Forall_app. split; [assumption|].
    constructor; [|constructor]. intros [].
Qed.

End DecodeFailure.

(** *** Chunks and registry go together *)

Lemma index_one_registered (ftype : string) (p : Pass) (path : string) :
  registered (p_indexer p) -> registered (p_indexer (index_one ftype p path)).
Proof.
  intros Hreg. unfold Indexer.index_one.
  destruct (_should_exclude config path); [assumption|].
  unfold Indexer._index_file.
  destruct (read_text fs path) as [text| |]; [|
    destruct (getsize fs path) as [size|e]; unfold registered in *; cbn;
    now rewrite app_nil_r | exact Hreg].
  destruct (getmtime fs path) as [modified|e]; [|exact Hreg].
  assert (Hnew : forall info,
            registered
              {| chunks := chunks (p_indexer p) ++ _create_chunks text path ftype;
                 files_index := <[path := info]> (files_index (p_indexer p)) |}).
  { intros info. unfold registered in *. cbn. apply List.Forall_app. split.
    - eapply List.Forall_impl; [|exact Hreg]. cbn. intros c Hc.
      apply lookup_insert_is_Some.
      destruct (decide (path = file_path c)); [now left | now right].
    - eapply List.Forall_impl; [|apply create_chunks_path].
      cbn. intros c ->. rewrite lookup_insert_eq. now eexists. }
  destruct (getsize fs path) as [size|e]; apply Hnew.
Qed.

Lemma registered_fold {A} (step : Pass -> A -> Pass) (xs : list A) :
  (forall p x, registered (p_indexer p) -> registered (p_indexer (step p x))) ->
  forall p, registered (p_indexer p) -> registered (p_indexer (fold_left step xs p)).
Proof.
  intros Hstep. induction xs as [|x xs IH]; intros p Hp; simpl; [assumption|].
  now apply IH, Hstep.
Qed.

(** A pass keeps every chunk with a file of the registry; a reindex
    starts from none and so ends with the chunks and the files of one
    pass. *)
Lemma index_all_registered (self : Indexer) :
  registered self -> registered (fst (fst (index_all self))).
Proof.
  intros Hreg. unfold Indexer.index_all. cbn [fst].
  apply registered_fold; [|exact Hreg]. intros p [ftype patterns] Hp.
  apply registered_fold; [|exact Hp]. intros q pattern Hq.
  apply registered_fold; [|exact Hq]. intros r path Hr.
  now apply index_one_registered.
Qed.

Lemma reindex_registered (self : Indexer) :
  registered
    (fst (fst (reindex md5_hexdigest path_suffix glob fs config self))).
Proof. apply index_all_registered. constructor. Qed.

(** *** [get_file_content] *)


End Pass.

(** *** The sample disk *)

Import Samples.

(** C7, tested: [src/logo.py] does not decode; the pass of the sample disk
    logs nothing but its closing line and counts the file among the two
    it indexed, where the pass that never meets the file counts one. *)
Lemma decode_failure_silent_and_counted :
  read_text disk "src/logo.py" = DecodeFails /\
  (let '(_, stats, log) :=
     index_all digest suffix found disk (sized 1000 100) fresh_indexer in
   files_indexed stats = 2 /\
   by_type stats !! "code" = Some 2 /\
   log = [InfoIndexingComplete 2 1]) /\
  ~ Stated.skip_logged_uncounted digest suffix found disk (sized 1000 100)
      fresh_indexer "src/logo.py".
Proof.
  split; [reflexivity|]. split; [vm_compute; repeat split|].
  unfold Stated.skip_logged_uncounted.
  destruct (index_all digest suffix found disk (sized 1000 100) fresh_indexer)
    as [[after stats] log] eqn:Hpass.
  destruct (index_all digest suffix (Stated.glob_without found "src/logo.py")
              disk (sized 1000 100) fresh_indexer)
    as [[after' stats'] log'] eqn:Hpass'.
  intros [_ Hstats].
  apply (f_equal (fun r => files_indexed (snd (fst r)))) in Hpass, Hpass'.
  vm_compute in Hpass, Hpass'. cbn in Hpass, Hpass'.
  rewrite Hstats in Hpass. congruence.
Qed.

Lemma decode_failure_skipped_witness :
  disk "src/logo.py" = Some binary /\
  d_read binary = DecodeFails /\
  forall ftype p,
    p_indexer (index_one digest suffix disk (sized 1000 100) ftype p "src/logo.py")
    = p_indexer p /\
    p_log (index_one digest suffix disk (sized 1000 100) ftype p "src/logo.py")
    = p_log p.
Proof.
  split; [reflexivity|]. split; [reflexivity|].
  apply (decode_failure_skipped digest suffix found disk (sized 1000 100)
           "src/logo.py" binary eq_refl eq_refl fresh_indexer).
Defined.

(** C10 on the sample disk: [src/main.py] before any pass, and a path
    that is not there. *)
Example never_indexed_file_is_unknown :
  option_map (fun a => (fc_content a, fc_type a))
    (fst (get_file_content suffix disk fresh_indexer "src/main.py"))
  = Some (file ["import os"; "print(os.sep)"], "unknown") /\
  fst (get_file_content suffix disk fresh_indexer "src/gone.py") = None /\
  fst (get_file_content suffix disk fresh_indexer "src/logo.py") = None.
Proof. repeat split. Qed.

End IndexFacts.

(** ** The reindex in flight *)

Module ServerFacts.

Import Indexer Server.

Section Reindex.

Variable md5_hexdigest : string -> string.
Variable path_suffix : string -> string.
Variable glob : string -> list string.
Variable fs : string -> option DiskFile.
Variable config : Config.

Variable Vec : Type.
Variable Score : Type.
Variable encode : string -> Vec.
Variable normalize_L2 : Vec -> Vec.
Variable astype_float32 : Vec -> Vec.
Variable index_search : list Vec -> Vec -> Z -> list (Score * Z).

Local Abbreviation call_reindex :=
  (call_reindex md5_hexdigest path_suffix glob fs config Vec encode normalize_L2
                astype_float32).
Local Abbreviation search :=
  (VectorStore.search Vec Score encode normalize_L2 astype_float32 index_search).
Local Abbreviation aligned :=
  (VectorStore.aligned Vec encode normalize_L2 astype_float32).
Local Abbreviation exec :=
  (exec md5_hexdigest path_suffix glob fs config Vec encode normalize_L2
        astype_float32).
Local Abbreviation after :=
  (after md5_hexdigest path_suffix glob fs config Vec encode normalize_L2
         astype_float32).
Local Abbreviation step :=
  (step Vec Score encode normalize_L2 astype_float32 index_search).
Local Abbreviation steps :=
  (steps Vec Score encode normalize_L2 astype_float32 index_search).
Local Abbreviation reads_needed :=
  (reads_needed Vec Score encode normalize_L2 astype_float32 index_search).
Local Abbreviation turn :=
  (turn md5_hexdigest path_suffix glob fs config Vec Score encode normalize_L2
        astype_float32 index_search).
Local Abbreviation play :=
  (play md5_hexdigest path_suffix glob fs config Vec Score encode normalize_L2
        astype_float32 index_search).

(** After the two calls the store holds the chunks of the indexer, row
    for row, and these are the chunks of the files of the registry. *)
Lemma call_reindex_new (sys : Sys Vec) :
  VectorStore.chunks (vector_store (call_reindex sys))
  = chunks (indexer (call_reindex sys)) /\
  aligned (vector_store (call_reindex sys)) /\
  registered (indexer (call_reindex sys)).
Proof.
  pose proof (IndexFacts.reindex_registered md5_hexdigest path_suffix glob fs
                config (indexer sys)) as Hreg.
  unfold Server.call_reindex.
  destruct (reindex md5_hexdigest path_suffix glob fs config (indexer sys))
    as [[self stats] log].
  cbn [fst] in Hreg. cbn [indexer vector_store]. repeat split.
  - unfold VectorStore.rebuild, VectorStore.build, get_all_chunks.
    destruct (chunks self); reflexivity.
  - apply VectorStoreFacts.build_aligned. reflexivity.
  - exact Hreg.
Qed.

(** *** A search that is alone *)

Section Alone.

Variable query : string.
Variable top_k : Z.
Variable filter_type : string.

Lemma steps_finished (n : nat) (m : Mem Vec) (outcome : Outcome Score) :
  steps query top_k filter_type n m (Finished outcome) = Finished outcome.
Proof. induction n as [|n IH]; [reflexivity | exact IH]. Qed.

(** On a memory that does not change, the reads of the loop give what
    the loop of [search] gives. *)
Lemma loop_alone (m : Mem Vec) (candidates : list (Score * Z)) :
  forall results n,
    (2 * length candidates + 1 <= n)%nat ->
    steps query top_k filter_type n m (AtBound Score candidates results)
    = Finished
        (Returned
           (VectorStore.collect Score (m_chunks m) top_k filter_type
              candidates results)).
Proof.
  induction candidates as [|[score idx] rest IH]; intros results n Hn.
  - destruct n as [|n]; [cbn in Hn; lia|]. cbn. apply steps_finished.
  - cbn [length] in Hn. destruct n as [|n]; [lia|].
    cbn [Server.steps Server.step VectorStore.collect].
    destruct ((idx <? 0) || (idx >=? Z.of_nat (length (m_chunks m)))) eqn:Hbad;
      [apply IH; lia|].
    destruct n as [|n]; [lia|].
    cbn [Server.steps Server.step].
    destruct (m_chunks m !! Z.to_nat idx) as [chunk|] eqn:Hchunk.
    + destruct (negb (String.eqb filter_type "all")
                && negb (String.eqb (file_type chunk) filter_type));
        [apply IH; lia|].
      destruct (Z.of_nat
                  (length (results ++ [VectorStore.mkResult chunk score]))
                >=? top_k);
        [apply steps_finished | apply IH; lia].
    + apply orb_false_iff in Hbad as [Hneg Hlen].
      apply lookup_ge_None in Hchunk. lia.
Qed.

(** A search whose reads no statement of a reindex comes between returns
    what [search] returns on the store as it is. *)
Lemma search_alone (m : Mem Vec) (n : nat) :
  (reads_needed query top_k m <= n)%nat ->
  steps query top_k filter_type n m (AtTestNone Score)
  = Finished (Returned (search (store_of Vec m) query top_k filter_type)).
Proof.
  unfold Server.reads_needed, VectorStore.search, store_of. cbn [VectorStore.index
    VectorStore.chunks].
  destruct (m_index m) as [ref|] eqn:Hindex; intros Hn.
  - destruct n as [|n]; [lia|]. cbn [Server.steps Server.step]. rewrite Hindex.
    destruct n as [|n]; [lia|]. cbn [Server.steps Server.step]. rewrite Hindex.
    destruct (VectorStore.ntotal Vec (rows_of Vec m ref) =? 0);
      [apply steps_finished|].
    do 4 (destruct n as [|n]; [lia|];
          cbn [Server.steps Server.step]; rewrite ?Hindex).
    apply loop_alone. lia.
  - destruct n as [|n]; [lia|]. cbn [Server.steps Server.step]. rewrite Hindex.
    apply steps_finished.
Qed.

(** *** Schedules *)

Lemma play_writers (j : nat) :
  forall m todo pc,
    fold_left (turn query top_k filter_type) (repeat Writer j)
              (mkRace Vec Score m todo pc)
    = mkRace Vec Score (fold_left exec (firstn j todo) m) (skipn j todo) pc.
Proof.
  induction j as [|j IH]; intros m todo pc; [reflexivity|].
  cbn [repeat fold_left Server.turn r_todo r_mem r_search].
  destruct todo as [|s todo].
  - rewrite IH. now rewrite firstn_nil, skipn_nil.
  - rewrite IH. reflexivity.
Qed.

Lemma play_readers (n : nat) :
  forall m todo pc,
    fold_left (turn query top_k filter_type) (repeat Reader n)
              (mkRace Vec Score m todo pc)
    = mkRace Vec Score m todo (steps query top_k filter_type n m pc).
Proof.
  induction n as [|n IH]; intros m todo pc; [reflexivity|].
  cbn [repeat fold_left Server.turn r_todo r_mem r_search Server.steps].
  apply IH.
Qed.

Lemma play_finished (schedule : list Turn) :
  forall (r : Race Vec Score) outcome,
    r_search r = Finished outcome ->
    r_search (fold_left (turn query top_k filter_type) schedule r)
    = Finished outcome.
Proof.
  induction schedule as [|t schedule IH]; intros r outcome Hr; [exact Hr|].
  cbn [fold_left]. apply IH. destruct t; cbn.
  - now destruct (r_todo r).
  - now rewrite Hr.
Qed.

End Alone.

(** *** The store in the course of the reindex *)

Lemma store_of_mem_of (sys : Sys Vec) : store_of Vec (mem_of Vec sys) = vector_store sys.
Proof.
  unfold store_of, mem_of. destruct (vector_store sys) as [[rows|] cs]; reflexivity.
Qed.

Lemma store_until_rebuild (sys : Sys Vec) (j : nat) :
  (j <= 3)%nat -> store_of Vec (after j (mem_of Vec sys)) = vector_store sys.
Proof.
  intros Hj. rewrite <- store_of_mem_of.
  unfold Server.after, store_of, mem_of.
  destruct (vector_store sys) as [[rows|] cs];
    destruct j as [|[|[|[|j]]]]; try lia; reflexivity.
Qed.

(** Without an index, or with an index that has no row, a search
    returns the empty list. *)
Lemma search_no_rows (m : Mem Vec) (query : string) (top_k : Z)
    (filter_type : string) :
  match m_index m with
  | None => True
  | Some ref => rows_of Vec m ref = []
  end ->
  search (store_of Vec m) query top_k filter_type = [].
Proof.
  unfold VectorStore.search, store_of. cbn [VectorStore.index].
  destruct (m_index m); [intros ->|]; reflexivity.
Qed.

(** From the first statement of [rebuild] to the last but one of [build]
    there is no index, or an index without rows. *)
Lemma store_while_rebuilding (sys : Sys Vec) (j : nat)
    (query : string) (top_k : Z) (filter_type : string) :
  (4 <= j <= 7)%nat ->
  search (store_of Vec (after j (mem_of Vec sys))) query top_k filter_type = [].
Proof.
  intros Hj. apply search_no_rows. unfold Server.after.
  do 4 (destruct j as [|j]; [lia|]).
  cbn [firstn reindex_stmts fold_left].
  generalize (exec (exec (exec (mem_of Vec sys) ClearChunks) ClearFilesIndex)
                   IndexAll).
  intros m3.
  destruct j as [|[|[|[|j]]]]; try lia; cbn [firstn fold_left].
  - exact I.
  - exact I.
  - cbn [Server.exec m_indexer m_index m_objects m_chunks].
    now destruct (truthy (get_all_chunks (m_indexer m3))).
  - cbn [Server.exec m_indexer m_index m_objects m_chunks].
    destruct (truthy (get_all_chunks (m_indexer m3))) eqn:Hnew;
      cbn [m_indexer m_index m_objects m_chunks]; rewrite ?Hnew;
      cbn [m_indexer m_index m_objects m_chunks]; [|exact I].
    unfold rows_of. cbn [m_objects].
    now rewrite list_lookup_middle.
Qed.

(** The eight statements in program order are the two calls. *)
Lemma store_after_build (sys : Sys Vec) (j : nat) :
  (8 <= j)%nat ->
  store_of Vec (after j (mem_of Vec sys)) = vector_store (call_reindex sys) /\
  m_indexer (after j (mem_of Vec sys)) = indexer (call_reindex sys).
Proof.
  intros Hj. unfold Server.after.
  rewrite firstn_all2 by (cbn; lia).
  unfold Server.call_reindex, reindex, reindex_stmts.
  cbn [fold_left].
  cbn [Server.exec m_indexer m_index m_objects m_chunks get_all_chunks chunks
       files_index].
  set (cleared := {| chunks := []; files_index := ∅ |}).
  replace {| chunks := chunks
               {| chunks := []; files_index := files_index (m_indexer (mem_of Vec sys)) |};
             files_index := ∅ |} with cleared by reflexivity.
  destruct (index_all md5_hexdigest path_suffix glob fs config cleared)
    as [[self stats] log].
  cbn [fst indexer vector_store].
  unfold VectorStore.rebuild, VectorStore.build, store_of, get_all_chunks.
  destruct (truthy (chunks self)) eqn:Hnew;
    cbn [m_indexer m_index m_objects m_chunks negb]; rewrite ?Hnew;
    cbn [m_indexer m_index m_objects m_chunks negb]; rewrite ?Hnew;
    cbn [m_indexer m_index m_objects m_chunks negb].
  - split; [|reflexivity]. unfold rows_of. cbn [m_objects].
    rewrite list_lookup_alter_eq, list_lookup_middle by reflexivity.
    reflexivity.
  - split; reflexivity.
Qed.

(** C9, as the code has it: the reindex is eight assignments in a row
    and a search reads the index and the chunk list again at every use,
    with no lock between the two.  Only a search that no statement of the
    reindex interrupts is safe: run after the first [j] statements, with
    all its reads before the next one, it returns what [search] returns
    on the store as those statements left it.  That store is the old one
    until [rebuild] starts ([j <= 3]); it has no index, or an index without
    rows, from the first statement of [rebuild] to the last but one of
    [build], and the search returns the empty list; after the last
    statement it is the store of the two calls run alone, whose chunks are
    those of the indexer, row for row, of files of the new registry. *)
Theorem search_apart_from_reindex (sys : Sys Vec) (j : nat)
    (query : string) (top_k : Z) (filter_type : string) :
  (forall n rest,
     (reads_needed query top_k (after j (mem_of Vec sys)) <= n)%nat ->
     r_search
       (play sys query top_k filter_type
             (repeat Writer j ++ repeat Reader n ++ rest))
     = Finished
         (Returned
            (search (store_of Vec (after j (mem_of Vec sys)))
                    query top_k filter_type))) /\
  match j with
  | 0%nat | 1%nat | 2%nat | 3%nat =>
      store_of Vec (after j (mem_of Vec sys)) = vector_store sys
  | 4%nat | 5%nat | 6%nat | 7%nat =>
      search (store_of Vec (after j (mem_of Vec sys))) query top_k filter_type
      = []
  | _ =>
      store_of Vec (after j (mem_of Vec sys)) = vector_store (call_reindex sys) /\
      m_indexer (after j (mem_of Vec sys)) = indexer (call_reindex sys)
  end /\
  VectorStore.chunks (vector_store (call_reindex sys))
  = chunks (indexer (call_reindex sys)) /\
  aligned (vector_store (call_reindex sys)) /\
  registered (indexer (call_reindex sys)).
Proof.
  split; [|split; [|apply call_reindex_new]].
  - intros n rest Hn. unfold Server.play.
    rewrite !fold_left_app, play_writers, play_readers.
    apply play_finished. cbn [r_search].
    now apply search_alone.
  - destruct j as [|[|[|[|[|[|[|[|j]]]]]]]];
      try (apply store_until_rebuild; lia);
      try (apply store_while_rebuilding; lia).
    apply store_after_build. lia.
Qed.

End Reindex.

Import Samples.

(** C9, tested on the sample server, whose disk does not change.  A
    search that has found an index at its first read and finds [None] at
    its second, [rebuild] having started in between, raises; a search
    that has checked an index against the old chunk list and fetches from
    the list [rebuild] has emptied raises too; neither returns what it
    returns before or after the reindex. *)
Lemma search_torn_by_reindex :
  r_search
    (play digest suffix found disk (sized 1000 100) Z Z len same same knn
          started "os" 1 "all"
          [Reader; Writer; Writer; Writer; Writer; Reader])
  = Finished (Raised AttributeError) /\
  r_search
    (play digest suffix found disk (sized 1000 100) Z Z len same same knn
          started "os" 1 "all"
          (repeat Reader 7 ++ repeat Writer 5 ++ [Reader]))
  = Finished (Raised IndexError) /\
  ~ Stated.search_sees_old_or_new digest suffix found disk (sized 1000 100)
      Z Z len same same knn started "os" 1 "all".
Proof.
  assert (Htorn :
    r_search
      (play digest suffix found disk (sized 1000 100) Z Z len same same knn
            started "os" 1 "all"
            [Reader; Writer; Writer; Writer; Writer; Reader])
    = Finished (Raised AttributeError)) by (vm_compute; reflexivity).
  split; [exact Htorn|]. split; [vm_compute; reflexivity|].
  intros Hclaim.
  destruct (Hclaim _ _ Htorn) as [H | H]; discriminate H.
Qed.

End ServerFacts.

(** ** More on the chunker *)

Module ChunkerMore.

Import Indexer PyStrFacts ChunkerFacts.

(** Splitting at the newlines and joining with newlines gives the text
    back. *)
Lemma join_split (s : string) : join nl (split NL s) = s.
Proof.
  induction s as [|c s IH]; [reflexivity|].
  cbn [split]. destruct (Ascii.eqb_spec c NL) as [-> | Hc].
  - pose proof (split_nonempty NL s) as Hne.
    destruct (split NL s) as [|l ls] eqn:Hsplit; [congruence|].
    change (join nl (EmptyString :: l :: ls))
      with (String NL (join nl (l :: ls))).
    now rewrite IH.
  - pose proof (split_nonempty NL s) as Hne.
    destruct (split NL s) as [|l ls] eqn:Hsplit; [congruence|].
    rewrite <- IH. destruct ls as [|l' ls]; reflexivity.
Qed.

(** Lines that fit together stay in one buffer. *)
Lemma spans_all_fit (size_limit overlap : Z) (lines : list string) :
  forall fr size,
    size = total_len fr ->
    total_len fr + total_len lines <= size_limit ->
    fr ++ lines <> [] ->
    spans size_limit overlap lines [] fr size = [mkSpan [] (fr ++ lines)].
Proof.
  induction lines as [|line lines IH]; intros fr size Hsize Hfit Hne.
  - rewrite app_nil_r in *. simpl. destruct fr; [congruence | reflexivity].
  - simpl in *. pose proof (total_len_nonneg lines).
    replace (size + len line >? size_limit) with false by lia.
    cbn [andb]. rewrite (IH (fr ++ [line])).
    + now rewrite <- app_assoc.
    + rewrite total_len_app. simpl. lia.
    + rewrite total_len_app. simpl. lia.
    + now destruct fr.
Qed.

(** The buffer a run of the loop emits first starts with the buffer the
    run started with. *)
Lemma spans_head (size_limit overlap : Z) (lines : list string) :
  forall sd fr size,
    fr <> [] ->
    exists more rest,
      spans size_limit overlap lines sd fr size = mkSpan sd (fr ++ more) :: rest.
Proof.
  induction lines as [|line lines IH]; intros sd fr size Hfr.
  - exists [], []. simpl. rewrite app_nil_r.
    destruct sd; destruct fr; try congruence; reflexivity.
  - simpl. destruct ((size + len line >? size_limit) && truthy (sd ++ fr)).
    + exists []. rewrite app_nil_r. eexists. reflexivity.
    + destruct (IH sd (fr ++ [line]) (size + len line)) as (more & rest & Heq);
        [now destruct fr|].
      exists (line :: more), rest. rewrite Heq. now rewrite <- app_assoc.
Qed.

(** Where the walk back stops: at the start of the buffer or before a
    line that would pass the overlap. *)
Lemma overlap_walk_stops (overlap : Z) (reversed acc : list string) (size : Z) :
  exists taken rest,
    reversed = taken ++ rest /\
    overlap_walk overlap reversed acc size
      = (rev taken ++ acc, size + total_len taken) /\
    (rest = [] \/
     exists line rest',
       rest = line :: rest' /\ overlap < size + total_len taken + len line).
Proof.
  revert acc size.
  induction reversed as [|prev_line reversed IH]; intros acc size.
  - exists [], []. simpl. repeat split; [f_equal; lia | now left].
  - simpl. destruct (size + len prev_line >? overlap) eqn:Hcmp.
    + exists [], (prev_line :: reversed). simpl.
      repeat split; [f_equal; lia|]. right. exists prev_line, reversed.
      split; [reflexivity | lia].
    + destruct (IH (prev_line :: acc) (size + len prev_line))
        as (taken & rest & -> & Hwalk & Hstop).
      exists (prev_line :: taken), rest. simpl. repeat split.
      * rewrite Hwalk. rewrite <- app_assoc. simpl. f_equal. lia.
      * destruct Hstop as [-> | (line & rest' & -> & Hlt)]; [now left|].
        right. exists line, rest'. split; [reflexivity | lia].
Qed.

Lemma overlap_walk_longest (overlap : Z) (buffer : list string) :
  exists sd front,
    overlap_walk overlap (rev buffer) [] 0 = (sd, total_len sd) /\
    buffer = front ++ sd /\
    (front = [] \/
     exists before line,
       front = before ++ [line] /\ overlap < total_len sd + len line).
Proof.
  destruct (overlap_walk_stops overlap (rev buffer) [] 0)
    as (taken & rest & Hrev & Hwalk & Hstop).
  exists (rev taken), (rev rest). rewrite app_nil_r in Hwalk.
  rewrite total_len_rev. repeat split.
  - rewrite Hwalk. f_equal.
  - rewrite <- rev_app_distr, <- Hrev. now rewrite rev_involutive.
  - destruct Hstop as [-> | (line & rest' & -> & Hlt)]; [now left|].
    right. exists (rev rest'), line. split; [reflexivity | lia].
Qed.

(** Each buffer is closed by a line that does not fit, and the next is
    seeded with the longest run the overlap allows. *)
Lemma spans_adjacent (size_limit overlap : Z) (lines : list string) :
  forall sd fr size,
    size = total_len (sd ++ fr) ->
    adjacent (fun g next => closed_by size_limit g next /\
                            longest_seed overlap g next)
             (spans size_limit overlap lines sd fr size).
Proof.
  induction lines as [|line lines IH]; intros sd fr size Hsize.
  - simpl. destruct (truthy (sd ++ fr)); simpl; auto.
  - simpl.
    destruct ((size + len line >? size_limit) && truthy (sd ++ fr)) eqn:Hemit.
    + apply andb_true_iff in Hemit as [Hover _].
      destruct (overlap_walk_longest overlap (sd ++ fr))
        as (next & front & Hwalk & Hbuf & Hlong).
      rewrite Hwalk.
      assert (Hrest : adjacent
                (fun g next => closed_by size_limit g next /\
                               longest_seed overlap g next)
                (spans size_limit overlap lines next [line]
                       (total_len next + len line))).
      { apply IH. rewrite total_len_app. simpl. lia. }
      destruct (spans_head size_limit overlap lines next [line]
                  (total_len next + len line)) as (more & rest & Heq);
        [discriminate|].
      rewrite Heq in *. split; [|exact Hrest]. split.
      * exists line, more. split; [reflexivity|].
        unfold span_lines. cbn [seed fresh]. lia.
      * exists front. split; [exact Hbuf | exact Hlong].
    + apply IH. rewrite app_assoc, total_len_app. simpl. lia.
Qed.

(** Every emitted buffer is a run of consecutive lines of what the loop
    has consumed and has yet to consume. *)
Lemma spans_slices (size_limit overlap : Z) (lines : list string) :
  forall above sd fr size,
    Forall
      (fun g =>
         exists before below,
           above ++ sd ++ fr ++ lines = before ++ span_lines g ++ below)
      (spans size_limit overlap lines sd fr size).
Proof.
  induction lines as [|line lines IH]; intros above sd fr size.
  - simpl. destruct (truthy (sd ++ fr)); constructor; [|constructor].
    exists above, []. unfold span_lines. cbn [seed fresh].
    now rewrite !app_nil_r.
  - simpl.
    destruct ((size + len line >? size_limit) && truthy (sd ++ fr)).
    + constructor.
      * exists above, (line :: lines). unfold span_lines. cbn [seed fresh].
        now rewrite <- app_assoc.
      * destruct (overlap_walk_trails overlap (sd ++ fr))
          as (next & Hwalk & [front Hfront] & _).
        rewrite Hwalk.
        specialize (IH (above ++ front) next [line] (total_len next + len line)).
        eapply List.Forall_impl; [|exact IH].
        intros g (before & below & Heq). exists before, below.
        rewrite <- Heq.
        rewrite (app_assoc sd fr), Hfront, <- !app_assoc. reflexivity.
    + specialize (IH above sd (fr ++ [line]) (size + len line)).
      eapply List.Forall_impl; [|exact IH].
      intros g (before & below & Heq). exists before, below.
      rewrite <- Heq, <- !app_assoc. reflexivity.
Qed.

Lemma concat_length_ge {A} (ls : list (list A)) :
  Forall (fun l => l <> []) ls -> (length ls <= length (concat ls))%nat.
Proof.
  induction 1 as [|l ls Hl _ IH]; simpl; [lia|].
  rewrite length_app. destruct l; [congruence | simpl; lia].
Qed.

Section Emitted.

Variable md5_hexdigest : string -> string.
Variable path_suffix : string -> string.
Variable config : Config.

Local Abbreviation make_chunk := (make_chunk md5_hexdigest path_suffix).
Local Abbreviation _create_chunks := (_create_chunks md5_hexdigest path_suffix config).
Local Abbreviation _detect_language := (_detect_language path_suffix).

(** X1: a file whose lines total at most [chunk_size] characters, the
    newlines not counted, is one chunk, and the content of that chunk is
    the file. *)
Theorem small_file_one_chunk (text path ftype : string) :
  total_len (split NL text) <= chunk_size config ->
  _create_chunks text path ftype = [make_chunk path ftype (split NL text)] /\
  List.map content (_create_chunks text path ftype) = [text].
Proof.
  intros Hfit.
  assert (H : _create_chunks text path ftype
              = [make_chunk path ftype (split NL text)]).
  { rewrite create_chunks_spans. unfold chunk_spans.
    rewrite (spans_all_fit _ _ _ [] 0); [reflexivity | reflexivity | | ].
    - simpl. lia.
    - apply split_nonempty. }
  split; [exact H|]. rewrite H. cbn. now rewrite join_split.
Qed.

(** X2: every chunk holds a line of the file that the chunk before it
    does not, whatever the overlap: a file gives at least one chunk and
    at most as many chunks as it has lines. *)
Theorem chunk_count_bounds (text path ftype : string) :
  (1 <= length (_create_chunks text path ftype) <= length (split NL text))%nat.
Proof.
  rewrite create_chunks_spans, List.length_map.
  pose proof (chunk_spans_emitted config text) as Hemitted.
  pose proof (spans_fresh (chunk_size config) (chunk_overlap config)
                (split NL text) [] [] 0) as Hfresh.
  fold (chunk_spans config text) in Hfresh. cbn [app] in Hfresh.
  pose proof (split_nonempty NL text) as Hlines.
  split.
  - destruct (chunk_spans config text); [|simpl; lia].
    simpl in Hfresh. congruence.
  - rewrite <- Hfresh, <- (List.length_map fresh).
    apply concat_length_ge. apply List.Forall_forall. intros l Hin.
    apply in_map_iff in Hin as (g & <- & Hg).
    rewrite List.Forall_forall in Hemitted. now apply Hemitted.
Qed.

(** X3: chunks are filled greedily: a chunk is closed only when the next
    line of the file, added to the lines it holds, would pass
    [chunk_size]. *)
Theorem chunk_closed_by_overflow (text : string) :
  adjacent (closed_by (chunk_size config)) (chunk_spans config text).
Proof.
  pose proof (spans_adjacent (chunk_size config) (chunk_overlap config)
                (split NL text) [] [] 0 eq_refl) as H.
  fold (chunk_spans config text) in H.
  induction (chunk_spans config text) as [|g gs IH]; [exact I|].
  destruct H as [Hg Hrest]. split; [|now apply IH].
  destruct gs; [exact I | apply Hg].
Qed.

(** X4: the overlap is as long as the budget allows: what a chunk
    inherits is the whole chunk before it, or the line before the
    inherited run would bring it over [chunk_overlap]. *)
Theorem overlap_seed_longest (text : string) :
  adjacent (longest_seed (chunk_overlap config)) (chunk_spans config text).
Proof.
  pose proof (spans_adjacent (chunk_size config) (chunk_overlap config)
                (split NL text) [] [] 0 eq_refl) as H.
  fold (chunk_spans config text) in H.
  induction (chunk_spans config text) as [|g gs IH]; [exact I|].
  destruct H as [Hg Hrest]. split; [|now apply IH].
  destruct gs; [exact I | apply Hg].
Qed.

(** X5: with a negative [chunk_overlap] no line is carried over, not
    even an empty one: the chunks cut the lines of the file into
    consecutive runs. *)
Theorem negative_overlap_partitions (text path ftype : string) :
  chunk_overlap config < 0 ->
  Forall (fun g => seed g = []) (chunk_spans config text) /\
  List.map content (_create_chunks text path ftype)
  = List.map (fun g => join nl (fresh g)) (chunk_spans config text) /\
  concat (List.map fresh (chunk_spans config text)) = split NL text.
Proof.
  intros Hneg.
  assert (Hseeds : Forall (fun g => seed g = []) (chunk_spans config text)).
  { eapply List.Forall_impl;
      [|exact (chained_Forall _ _ _ (chunk_spans_chained config text))].
    intros g (before & _ & [Hnil | Hfit]); [exact Hnil|].
    pose proof (total_len_nonneg (seed g)). lia. }
  split; [exact Hseeds|]. split.
  - rewrite create_chunks_content. apply map_ext_in. intros g Hg.
    rewrite List.Forall_forall in Hseeds. unfold span_lines.
    now rewrite (Hseeds g Hg).
  - unfold chunk_spans. now rewrite spans_fresh.
Qed.

(** X6: every chunk carries the path and the category it was made for,
    the language of the path, the digest of its own content and the
    metadata of its own content; so two chunks of equal content have the
    same id, whatever files they come from. *)
Theorem chunk_fields (text path ftype : string) :
  Forall
    (fun c =>
       file_path c = path /\
       file_type c = ftype /\
       language c = _detect_language path /\
       chunk_id c = md5_hexdigest (content c) /\
       metadata c = _extract_metadata (content c) ftype)
    (_create_chunks text path ftype) /\
  forall text' path' ftype' c c',
    In c (_create_chunks text path ftype) ->
    In c' (_create_chunks text' path' ftype') ->
    content c = content c' -> chunk_id c = chunk_id c'.
Proof.
  assert (Hall : forall t p f,
            Forall (fun c => chunk_id c = md5_hexdigest (content c))
                   (_create_chunks t p f)).
  { intros t p f. rewrite create_chunks_spans. apply List.Forall_forall.
    intros c Hin. apply in_map_iff in Hin as (g & <- & _). reflexivity. }
  split.
  - rewrite create_chunks_spans. apply List.Forall_forall.
    intros c Hin. apply in_map_iff in Hin as (g & <- & _). repeat split.
  - intros text' path' ftype' c c' Hc Hc' Hsame.
    pose proof (Hall text path ftype) as H1.
    pose proof (Hall text' path' ftype') as H2.
    rewrite List.Forall_forall in H1, H2.
    now rewrite (H1 c Hc), (H2 c' Hc'), Hsame.
Qed.

(** X21: every chunk is a slice of the file: its lines are consecutive
    lines of the file and its content is a part of the text of the
    file. *)
Theorem chunk_is_slice (text path ftype : string) :
  List.map content (_create_chunks text path ftype)
  = List.map (fun g => join nl (seed g ++ fresh g)) (chunk_spans config text) /\
  Forall
    (fun g =>
       (exists above below,
          split NL text = above ++ (seed g ++ fresh g) ++ below) /\
       exists head tail,
         text = String.append head
                  (String.append (join nl (seed g ++ fresh g)) tail))
    (chunk_spans config text).
Proof.
  split; [apply create_chunks_content|].
  pose proof (spans_slices (chunk_size config) (chunk_overlap config)
                (split NL text) [] [] [] 0) as Hslices.
  fold (chunk_spans config text) in Hslices. cbn [app] in Hslices.
  eapply List.Forall_impl; [|exact Hslices].
  intros g (above & below & Hlines). split; [now exists above, below|].
  pose proof (join_split text) as Htext. rewrite Hlines in Htext.
  destruct (join_ends above (span_lines g ++ below)) as [head Hhead].
  destruct (join_begins (span_lines g) below) as [tail Htail].
  exists head, tail. rewrite <- Htext, Hhead, Htail. reflexivity.
Qed.

End Emitted.

Import Samples.

Lemma small_file_one_chunk_witness :
  total_len (split NL (file ["import os"; "print(os.sep)"]))
  <= chunk_size (sized 1000 100) /\
  List.map content
    (_create_chunks digest suffix (sized 1000 100)
       (file ["import os"; "print(os.sep)"]) "src/main.py" "code")
  = [file ["import os"; "print(os.sep)"]].
Proof.
  split; [vm_compute; discriminate|].
  apply (small_file_one_chunk digest suffix (sized 1000 100)).
  vm_compute. discriminate.
Defined.

Lemma negative_overlap_partitions_witness :
  chunk_overlap (sized 3 (-1)) < 0 /\
  Forall (fun g => seed g = [])
         (chunk_spans (sized 3 (-1)) (file ["abc"; ""; "def"])).
Proof.
  split; [reflexivity|].
  apply (negative_overlap_partitions digest suffix (sized 3 (-1))
           (file ["abc"; ""; "def"]) "src/a.py" "code").
  reflexivity.
Defined.

End ChunkerMore.

(** ** More on the index pass *)

Module IndexMore.

Import Indexer PyStrFacts ChunkerFacts IndexFacts.

(** *** Metadata and language *)

Lemma startswith_hash (line : string) :
  startswith "#" line = true -> exists rest, line = String "#"%char rest.
Proof.
  destruct line as [|c rest]; [discriminate|]. cbn [startswith].
  rewrite andb_true_iff. intros [Hc _].
  apply Ascii.eqb_eq in Hc. subst. now exists rest.
Qed.

Lemma strip_heading (line : string) :
  startswith "#" line = true -> startswith "#" (strip line) = true.
Proof.
  intros H. apply startswith_hash in H as [rest ->].
  unfold strip. cbn [lstrip].
  change (is_space "#"%char) with false. cbn [rstrip].
  destruct (rstrip rest); reflexivity.
Qed.

(** X7: the metadata of a chunk is empty for every category but "code"
    and "documentation"; for documentation it is empty or one of the
    first five lines, a line that starts with [#], stripped; for code it
    is empty or one of the first ten lines, a line with a declaration
    marker, stripped. *)
Theorem metadata_shape (text ftype : string) :
  (ftype <> "code" -> ftype <> "documentation" ->
   _extract_metadata text ftype = "") /\
  (ftype = "documentation" ->
   _extract_metadata text ftype = "" \/
   exists line,
     In line (firstn 5 (split NL text)) /\
     startswith "#" line = true /\
     _extract_metadata text ftype = strip line /\
     startswith "#" (_extract_metadata text ftype) = true) /\
  (ftype = "code" ->
   _extract_metadata text ftype = "" \/
   exists line,
     In line (firstn 10 (split NL text)) /\
     is_declaration line = true /\
     _extract_metadata text ftype = strip line).
Proof.
  unfold _extract_metadata. split; [|split].
  - intros Hcode Hdoc.
    destruct (String.eqb_spec ftype "code"); [contradiction|].
    destruct (String.eqb_spec ftype "documentation"); [contradiction|].
    reflexivity.
  - intros ->. cbn [String.eqb Ascii.eqb Bool.eqb].
    destruct (List.find (startswith "#") (firstn 5 (split NL text)))
      as [line|] eqn:Hfind; [right | now left].
    apply find_some in Hfind as [Hin Hhash].
    exists line. repeat split; try assumption. now apply strip_heading.
  - intros ->. cbn [String.eqb Ascii.eqb Bool.eqb].
    destruct (List.find is_declaration (firstn 10 (split NL text)))
      as [line|] eqn:Hfind; [right | now left].
    apply find_some in Hfind as [Hin Hdecl]. now exists line.
Qed.

(** X8: the metadata of a chunk depends on its first ten lines only. *)
Theorem metadata_window (text text' ftype : string) :
  firstn 10 (split NL text) = firstn 10 (split NL text') ->
  _extract_metadata text ftype = _extract_metadata text' ftype.
Proof.
  intros Hsame. unfold _extract_metadata.
  assert (Hfive : firstn 5 (split NL text) = firstn 5 (split NL text')).
  { change 5%nat with (Nat.min 5 10).
    now rewrite <- !firstn_firstn, Hsame. }
  now rewrite Hsame, Hfive.
Qed.

Section Language.

Variable path_suffix : string -> string.

(** X9: the language of a path is empty exactly when the suffix of the
    path is none of the ten extensions of the table. *)
Theorem language_unknown_iff (path : string) :
  _detect_language path_suffix path = "" <->
  ~ In (path_suffix path) (List.map fst ext_map).
Proof.
  unfold _detect_language. generalize (path_suffix path) as k. intros k.
  unfold ext_map. cbn [dict_get List.map fst].
  repeat match goal with
         | |- context [String.eqb ?a k] =>
             destruct (String.eqb_spec a k) as [<- | ?]
         end;
    (split; intros H);
    try discriminate H;
    try reflexivity;
    try (intros Hin; cbn in Hin; intuition congruence);
    exfalso; apply H; cbn; tauto.
Qed.

End Language.

Import Samples.

Lemma metadata_window_witness :
  let head := ["# Tailtown"; "1"; "2"; "3"; "4"; "5"; "6"; "7"; "8"; "9"] in
  firstn 10 (split NL (file (head ++ ["class A"])))
  = firstn 10 (split NL (file (head ++ ["class B"; "class C"]))) /\
  _extract_metadata (file (head ++ ["class A"])) "code"
  = _extract_metadata (file (head ++ ["class B"; "class C"])) "code".
Proof.
  split; [reflexivity|].
  apply (metadata_window
           (file (["# Tailtown"; "1"; "2"; "3"; "4"; "5"; "6"; "7"; "8"; "9"]
                  ++ ["class A"]))
           (file (["# Tailtown"; "1"; "2"; "3"; "4"; "5"; "6"; "7"; "8"; "9"]
                  ++ ["class B"; "class C"])) "code").
  reflexivity.
Defined.

(** *** Exclusion *)

Lemma startswith_append (p rest : string) :
  startswith p (String.append p rest) = true.
Proof.
  induction p as [|c p IH]; [reflexivity|].
  change (String.append (String c p) rest) with (String c (String.append p rest)).
  cbn [startswith]. now rewrite Ascii.eqb_refl, IH.
Qed.

Lemma contains_startswith (p s : string) :
  startswith p s = true -> contains p s = true.
Proof. intros H. destruct s; cbn [contains]; now rewrite H. Qed.

Lemma contains_middle (p before after : string) :
  contains p (String.append before (String.append p after)) = true.
Proof.
  induction before as [|c before IH].
  - change (contains p (String.append p after) = true).
    apply contains_startswith, startswith_append.
  - change (String.append (String c before) (String.append p after))
      with (String c (String.append before (String.append p after))).
    cbn [contains]. rewrite IH. apply orb_true_r.
Qed.

Lemma fold_left_fixed {A S} (step : S -> A -> S) (xs : list A) (s : S) :
  (forall x, step s x = s) -> fold_left step xs s = s.
Proof.
  intros Hstep. induction xs as [|x xs IH]; simpl; [reflexivity|].
  now rewrite Hstep.
Qed.

Lemma fold_left_In_inv {A S} (I : S -> Prop) (step : S -> A -> S) (xs : list A) :
  (forall s x, In x xs -> I s -> I (step s x)) ->
  forall s, I s -> I (fold_left step xs s).
Proof.
  induction xs as [|x xs IH]; intros Hstep s Hs; simpl; [assumption|].
  apply IH.
  - intros s' x' Hin. apply Hstep. now right.
  - apply Hstep; [now left | assumption].
Qed.

Lemma fold_left_flat_map {A B S} (step : S -> B -> S) (f : A -> list B)
    (xs : list A) :
  forall s,
    fold_left step (flat_map f xs) s
    = fold_left (fun s x => fold_left step (f x) s) xs s.
Proof.
  induction xs as [|x xs IH]; intros s; simpl; [reflexivity|].
  now rewrite fold_left_app, IH.
Qed.

Lemma fold_left_mapped {A B S} (step : S -> B -> S) (f : A -> B) (xs : list A) :
  forall s,
    fold_left step (List.map f xs) s = fold_left (fun s x => step s (f x)) xs s.
Proof.
  induction xs as [|x xs IH]; intros s; simpl; [reflexivity | apply IH].
Qed.

Section Pass.

Variable md5_hexdigest : string -> string.
Variable path_suffix : string -> string.
Variable glob : string -> list string.
Variable fs : string -> option DiskFile.
Variable config : Config.

Local Abbreviation _create_chunks := (_create_chunks md5_hexdigest path_suffix config).
Local Abbreviation index_one := (index_one md5_hexdigest path_suffix fs config).
Local Abbreviation index_group := (index_group md5_hexdigest path_suffix glob fs config).
Local Abbreviation index_all := (index_all md5_hexdigest path_suffix glob fs config).
Local Abbreviation visits := (visits glob fs config).
Local Abbreviation counted := (counted fs config).
Local Abbreviation discovered := (discovered glob fs config).
Local Abbreviation record_of := (record_of path_suffix fs).

(** The fragment an exclusion pattern is matched by. *)
Local Abbreviation fragment pattern :=
  (remove "*" (remove "**" (remove "**/" pattern))).

Lemma should_exclude_fragment (pattern before after : string) :
  In pattern (exclude_patterns config) ->
  _should_exclude config
    (String.append before (String.append (fragment pattern) after)) = true.
Proof.
  intros Hin. unfold _should_exclude. apply existsb_exists.
  exists pattern. split; [assumption | apply contains_middle].
Qed.

(** X10: exclusion is by fragment: a path that holds, anywhere, what is
    left of an exclusion pattern once its wildcards are removed is
    excluded. *)
Theorem excluded_by_fragment (pattern before after : string) :
  In pattern (exclude_patterns config) ->
  _should_exclude config
    (String.append before (String.append (fragment pattern) after)) = true.
Proof. apply should_exclude_fragment. Qed.

(** X11: an exclusion pattern made of wildcards only leaves the empty
    fragment, which every path holds: every file is excluded and a pass
    indexes nothing. *)
Theorem wildcard_pattern_excludes_all (pattern : string) :
  In pattern (exclude_patterns config) ->
  fragment pattern = "" ->
  (forall path, _should_exclude config path = true) /\
  (forall self,
     index_all self = (self, empty_stats, [InfoIndexingComplete 0 0])).
Proof.
  intros Hin Hempty.
  assert (Hall : forall path, _should_exclude config path = true).
  { intros path.
    pose proof (should_exclude_fragment pattern "" path Hin) as H.
    now rewrite Hempty in H. }
  split; [exact Hall|]. intros self. unfold Indexer.index_all.
  rewrite fold_left_fixed; [reflexivity|].
  intros [ftype patterns]. unfold Indexer.index_group.
  apply fold_left_fixed. intros pat. unfold Indexer.index_pattern.
  apply fold_left_fixed. intros path. unfold Indexer.index_one.
  now rewrite Hall.
Qed.

(** *** The registry *)

Lemma index_one_record (ftype : string) (p : Pass) (x : string)
    (path : string) (info : FileInfo) :
  files_index (p_indexer (index_one ftype p x)) !! path = Some info ->
  files_index (p_indexer p) !! path = Some info \/
  (path = x /\ _should_exclude config x = false /\ record_of ftype x info).
Proof.
  unfold Indexer.index_one.
  destruct (_should_exclude config x) eqn:Hexcl; [now left|].
  unfold Indexer._index_file, read_text, getmtime, getsize.
  destruct (fs x) as [f|] eqn:Hfs; [|now left].
  destruct (d_read f) as [text| |] eqn:Hread; cbn; [|now left | now left].
  destruct (decide (x = path)) as [<- | Hne].
  - rewrite lookup_insert_eq. intros [= <-]. right.
    repeat split. exists f, text. repeat split; assumption.
  - rewrite lookup_insert_ne by assumption. now left.
Qed.

Lemma index_all_entries (self : Indexer) (path : string) (info : FileInfo) :
  files_index (fst (fst (index_all self))) !! path = Some info ->
  files_index self !! path = Some info \/
  exists ftype, discovered ftype path /\ record_of ftype path info.
Proof.
  unfold Indexer.index_all. cbn [fst].
  set (I := fun p : Pass =>
              files_index (p_indexer p) !! path = Some info ->
              files_index self !! path = Some info \/
              exists ftype, discovered ftype path /\ record_of ftype path info).
  change (I (fold_left index_group (index_patterns config)
               {| p_indexer := self; p_stats := empty_stats; p_log := [] |})).
  apply fold_left_In_inv; [|now left].
  intros p [ftype patterns] Hgroup Hp. unfold Indexer.index_group. cbn [fst snd].
  apply fold_left_In_inv; [|exact Hp].
  intros q pattern Hpattern Hq. unfold Indexer.index_pattern.
  apply fold_left_In_inv; [|exact Hq].
  intros r x Hx Hr Hlookup.
  apply index_one_record in Hlookup as [Hold | (-> & Hexcl & Hrec)];
    [now apply Hr|].
  right. exists ftype. split; [|exact Hrec].
  apply filter_In in Hx as [Hglob Hfile].
  repeat split; [assumption | assumption |].
  exists patterns, pattern. repeat split; assumption.
Qed.

(** X12: after a pass, an entry of the registry is an entry the
    registry had before or the entry of a regular file that a pattern
    finds now, that is not excluded and that reads as text; its size is
    the number of characters read and its category that of a group that
    finds it. *)
Theorem registry_entries_of_pass (self : Indexer) (path : string)
    (info : FileInfo) :
  files_index (fst (fst (index_all self))) !! path = Some info ->
  files_index self !! path = Some info \/
  exists ftype, discovered ftype path /\ record_of ftype path info.
Proof. apply index_all_entries. Qed.

(** X13: a pass keeps every chunk of the indexer with an entry of the
    registry for its file. *)
Theorem pass_keeps_chunks_registered (self : Indexer) :
  registered self -> registered (fst (fst (index_all self))).
Proof. apply index_all_registered. Qed.


End Pass.

Import Samples.

Lemma excluded_by_fragment_witness :
  In "**/node_modules/**" (exclude_patterns (sized 1000 100)) /\
  _should_exclude (sized 1000 100) "src/node_modules/x.js" = true.
Proof.
  split; [now left|].
  apply (excluded_by_fragment (sized 1000 100) "**/node_modules/**"
           "src/" "x.js").
  now left.
Defined.

Lemma wildcard_pattern_excludes_all_witness :
  In "**" (exclude_patterns (excluding ["dist/**"; "**"])) /\
  forall path, _should_exclude (excluding ["dist/**"; "**"]) path = true.
Proof.
  split; [right; now left|].
  apply (wildcard_pattern_excludes_all digest suffix found disk
           (excluding ["dist/**"; "**"]) "**").
  - right. now left.
  - reflexivity.
Defined.

Lemma registry_entries_of_pass_witness :
  files_index
    (fst (fst (index_all digest suffix found disk (sized 1000 100) fresh_indexer)))
    !! "src/main.py"
  = Some {| fi_path := "src/main.py"; fi_type := "code"; fi_size := 23;
            fi_modified := "2025-01-01T00:00:00"; fi_language := "python" |} /\
  exists ftype, discovered found disk (sized 1000 100) ftype "src/main.py".
Proof.
  assert (H : files_index
                (fst (fst (index_all digest suffix found disk (sized 1000 100)
                                     fresh_indexer)))
                !! "src/main.py"
              = Some {| fi_path := "src/main.py"; fi_type := "code";
                        fi_size := 23;
                        fi_modified := "2025-01-01T00:00:00";
                        fi_language := "python" |})
    by (vm_compute; reflexivity).
  split; [exact H|].
  destruct (registry_entries_of_pass digest suffix found disk (sized 1000 100)
              fresh_indexer "src/main.py" _ H) as [Hold | (ftype & Hd & _)].
  - discriminate Hold.
  - now exists ftype.
Defined.

Lemma pass_keeps_chunks_registered_witness :
  registered
    (fst (fst (index_all digest suffix found disk (sized 1000 100) fresh_indexer))).
Proof.
  apply (pass_keeps_chunks_registered digest suffix found disk (sized 1000 100)
           fresh_indexer).
  constructor.
Defined.

End IndexMore.

(** ** The statistics of a pass *)

Module PassStatistics.

Import Indexer PyStrFacts ChunkerFacts IndexFacts IndexMore.

Lemma fold_left_ext {A S} (f g : S -> A -> S) (xs : list A) :
  (forall s x, f s x = g s x) ->
  forall s, fold_left f xs s = fold_left g xs s.
Proof.
  intros Hfg. induction xs as [|x xs IH]; intros s; simpl; [reflexivity|].
  now rewrite Hfg, IH.
Qed.

Section Pass.

Variable md5_hexdigest : string -> string.
Variable path_suffix : string -> string.
Variable glob : string -> list string.
Variable fs : string -> option DiskFile.
Variable config : Config.

Local Abbreviation _create_chunks := (_create_chunks md5_hexdigest path_suffix config).
Local Abbreviation index_one := (index_one md5_hexdigest path_suffix fs config).
Local Abbreviation index_pattern := (index_pattern md5_hexdigest path_suffix glob fs config).
Local Abbreviation index_group := (index_group md5_hexdigest path_suffix glob fs config).
Local Abbreviation index_all := (index_all md5_hexdigest path_suffix glob fs config).
Local Abbreviation visits := (visits glob fs config).
Local Abbreviation counted := (counted fs config).
Local Abbreviation size_on_disk := (size_on_disk fs).

(** One iteration, told by its pair of category and file. *)
Local Abbreviation visit p v := (index_one (fst v) p (snd v)).

(** The three nested loops are one loop over [visits]. *)
Lemma index_all_visits (p : Pass) :
  fold_left index_group (index_patterns config) p
  = fold_left (fun p v => visit p v) visits p.
Proof.
  unfold Indexer.visits. rewrite fold_left_flat_map.
  apply fold_left_ext. intros s [ftype patterns].
  unfold Indexer.index_group. cbn [fst snd].
  rewrite fold_left_flat_map. apply fold_left_ext. intros r pattern.
  rewrite fold_left_mapped. reflexivity.
Qed.

Lemma visit_tally (p : Pass) (v : string * string) :
  files_indexed (p_stats (visit p v))
  = files_indexed (p_stats p) + (if counted v then 1 else 0) /\
  total_size (p_stats (visit p v))
  = total_size (p_stats p) + (if counted v then size_on_disk (snd v) else 0) /\
  chunks_created (p_stats (visit p v))
  - Z.of_nat (length (chunks (p_indexer (visit p v))))
  = chunks_created (p_stats p) - Z.of_nat (length (chunks (p_indexer p))) /\
  (forall ft,
     default 0 (by_type (p_stats (visit p v)) !! ft)
     = default 0 (by_type (p_stats p) !! ft)
       + (if counted v && String.eqb (fst v) ft then 1 else 0)) /\
  (size (files_index (p_indexer (visit p v)))
   <= size (files_index (p_indexer p)) + (if counted v then 1 else 0))%nat.
Proof.
  destruct v as [ftype x]. cbn [fst snd].
  unfold Indexer.index_one, Indexer.counted. cbn [fst snd].
  destruct (_should_exclude config x); cbn [negb andb];
    [repeat split; intros; lia|].
  unfold Indexer._index_file, read_text, getmtime, getsize, Indexer.size_on_disk.
  destruct (fs x) as [f|]; [|cbn; repeat split; intros; lia].
  assert (Htype : forall (m : gmap string Z) ft,
            default 0 (<[ftype := default 0 (m !! ftype) + 1]> m !! ft)
            = default 0 (m !! ft) + (if String.eqb ftype ft then 1 else 0)).
  { intros m ft. destruct (String.eqb_spec ftype ft) as [<- | Hne].
    - now rewrite lookup_insert_eq.
    - rewrite lookup_insert_ne by assumption. lia. }
  destruct (d_read f) as [text| |]; cbn; [| |repeat split; intros; lia].
  - repeat split.
    + rewrite length_app. lia.
    + intros ft. apply Htype.
    + rewrite map_size_insert.
      destruct (files_index (p_indexer p) !! x); cbn; lia.
  - repeat split.
    + rewrite length_app. cbn. lia.
    + intros ft. apply Htype.
    + lia.
Qed.

Lemma visits_tally (vs : list (string * string)) :
  forall p,
    let q := fold_left (fun p v => visit p v) vs p in
    files_indexed (p_stats q)
    = files_indexed (p_stats p) + Z.of_nat (length (List.filter counted vs)) /\
    total_size (p_stats q)
    = total_size (p_stats p)
      + fold_right Z.add 0
          (List.map (fun v => size_on_disk (snd v)) (List.filter counted vs)) /\
    chunks_created (p_stats q) - Z.of_nat (length (chunks (p_indexer q)))
    = chunks_created (p_stats p) - Z.of_nat (length (chunks (p_indexer p))) /\
    (forall ft,
       default 0 (by_type (p_stats q) !! ft)
       = default 0 (by_type (p_stats p) !! ft)
         + Z.of_nat
             (length
                (List.filter (fun v => counted v && String.eqb (fst v) ft) vs))) /\
    (size (files_index (p_indexer q))
     <= size (files_index (p_indexer p)) + length (List.filter counted vs))%nat.
Proof.
  induction vs as [|v vs IH]; intros p; cbn zeta.
  - cbn. repeat split; intros; lia.
  - cbn [fold_left List.filter].
    destruct (IH (visit p v)) as (Hfiles & Hsize & Hchunks & Htypes & Hentries).
    destruct (visit_tally p v) as (Hfiles' & Hsize' & Hchunks' & Htypes' & Hentries').
    cbn zeta in *. repeat split.
    + rewrite Hfiles, Hfiles'. destruct (counted v); cbn [length]; lia.
    + rewrite Hsize, Hsize'.
      destruct (counted v); cbn [List.map fold_right]; lia.
    + now rewrite Hchunks, Hchunks'.
    + intros ft. rewrite Htypes, Htypes'.
      destruct (counted v && String.eqb (fst v) ft); cbn [length]; lia.
    + destruct (counted v); cbn [length] in *; lia.
Qed.

(** X14: the statistics a pass returns, read off the iterations that
    reach them (the file is not excluded and is read, decoded or not):
    [files_indexed] is their number, so a file counts once per pattern
    that finds it and counts when it does not decode; [total_size] is the
    sum of the sizes on disk; [chunks_created] is the number of chunks
    the pass added to the indexer; [by_type] holds, per category, the
    number of these iterations in groups of the category. *)
Theorem pass_statistics (self : Indexer) :
  let '(after, stats, _) := index_all self in
  files_indexed stats = Z.of_nat (length (List.filter counted visits)) /\
  total_size stats
  = fold_right Z.add 0
      (List.map (fun v => size_on_disk (snd v)) (List.filter counted visits)) /\
  chunks_created stats
  = Z.of_nat (length (chunks after)) - Z.of_nat (length (chunks self)) /\
  forall ft,
    default 0 (by_type stats !! ft)
    = Z.of_nat
        (length (List.filter (fun v => counted v && String.eqb (fst v) ft) visits)).
Proof.
  unfold Indexer.index_all. rewrite index_all_visits.
  destruct (visits_tally visits
              {| p_indexer := self; p_stats := empty_stats; p_log := [] |})
    as (Hfiles & Hsize & Hchunks & Htypes & _).
  cbn zeta in *. cbn [p_stats p_indexer empty_stats files_indexed total_size
                      chunks_created by_type] in *.
  repeat split.
  - rewrite Hfiles. lia.
  - rewrite Hsize. lia.
  - lia.
  - intros ft. rewrite Htypes, lookup_empty. cbn. lia.
Qed.

(** X15: a pass adds at most as many entries to the registry as it
    reports files indexed; it adds fewer when a file does not decode or
    is found by two patterns. *)
Theorem registry_within_files_indexed (self : Indexer) :
  let '(after, stats, _) := index_all self in
  Z.of_nat (size (files_index after))
  <= Z.of_nat (size (files_index self)) + files_indexed stats.
Proof.
  unfold Indexer.index_all. rewrite index_all_visits.
  destruct (visits_tally visits
              {| p_indexer := self; p_stats := empty_stats; p_log := [] |})
    as (Hfiles & _ & _ & _ & Hentries).
  cbn zeta in *. cbn [p_stats p_indexer empty_stats files_indexed] in *.
  rewrite Hfiles. lia.
Qed.

Local Abbreviation chunks_of_visit :=
  (chunks_of_visit md5_hexdigest path_suffix fs config).
Local Abbreviation failing := (failing fs config).

Lemma visit_adds (p : Pass) (v : string * string) :
  chunks (p_indexer (visit p v)) = chunks (p_indexer p) ++ chunks_of_visit v /\
  p_log (visit p v)
  = p_log p
    ++ (if failing v then [WarnFailedToIndex (snd v) OSError] else []).
Proof.
  destruct v as [ftype x]. cbn [fst snd].
  unfold Indexer.index_one, Indexer.chunks_of_visit, Indexer.failing.
  cbn [fst snd].
  destruct (_should_exclude config x); cbn [negb andb];
    [now rewrite !app_nil_r|].
  unfold Indexer._index_file, read_text, getmtime, getsize.
  destruct (fs x) as [f|]; [|cbn; now rewrite app_nil_r].
  destruct (d_read f) as [text| |]; cbn; now rewrite ?app_nil_r.
Qed.

Lemma visits_add (vs : list (string * string)) :
  forall p,
    let q := fold_left (fun p v => visit p v) vs p in
    chunks (p_indexer q) = chunks (p_indexer p) ++ flat_map chunks_of_visit vs /\
    p_log q
    = p_log p
      ++ List.map (fun v => WarnFailedToIndex (snd v) OSError)
           (List.filter failing vs).
Proof.
  induction vs as [|v vs IH]; intros p; cbn zeta.
  - cbn. now rewrite !app_nil_r.
  - cbn [fold_left flat_map List.filter].
    destruct (IH (visit p v)) as [Hchunks Hlog].
    destruct (visit_adds p v) as [Hchunks' Hlog'].
    cbn zeta in *. split.
    + now rewrite Hchunks, Hchunks', <- app_assoc.
    + rewrite Hlog, Hlog'. destruct (failing v); cbn [List.map];
        now rewrite <- app_assoc.
Qed.

(** X22: the chunks a pass leaves in the indexer are those it found
    there followed, in the order of the iterations, by the chunks of
    every file that is not excluded and reads as text, once per pattern
    that finds the file. *)
Theorem pass_chunks (self : Indexer) :
  chunks (fst (fst (index_all self)))
  = chunks self ++ flat_map chunks_of_visit visits.
Proof.
  unfold Indexer.index_all. cbn [fst]. rewrite index_all_visits.
  now destruct (visits_add visits
                  {| p_indexer := self; p_stats := empty_stats; p_log := [] |})
    as [Hchunks _].
Qed.

(** X23: the log of a pass is one warning for every iteration on a file
    that is not excluded and cannot be opened or read, in the order of
    the iterations, and the closing line with the numbers of files and
    chunks of the statistics; nothing else is logged. *)
Theorem pass_log (self : Indexer) :
  let '(_, stats, log) := index_all self in
  log
  = List.map (fun v => WarnFailedToIndex (snd v) OSError)
      (List.filter failing visits)
    ++ [InfoIndexingComplete (files_indexed stats) (chunks_created stats)].
Proof.
  unfold Indexer.index_all. rewrite index_all_visits.
  destruct (visits_add visits
              {| p_indexer := self; p_stats := empty_stats; p_log := [] |})
    as [_ Hlog].
  cbn zeta in Hlog. now rewrite Hlog.
Qed.



End Pass.

Import Samples.


End PassStatistics.

(** ** More on the vector store *)

Module StoreMore.

Import Indexer VectorStore VectorStoreFacts.

Lemma lookup_In {A} (l : list A) :
  forall (i : nat) (x : A), l !! i = Some x -> In x l.
Proof.
  induction l as [|y l IH]; intros [|i] x; simpl; try discriminate.
  - intros [= ->]. now left.
  - intros H. right. now apply (IH i).
Qed.

Section Store.

Variable Vec : Type.
Variable Score : Type.
Variable encode : string -> Vec.
Variable normalize_L2 : Vec -> Vec.
Variable astype_float32 : Vec -> Vec.
Variable index_search : list Vec -> Vec -> Z -> list (Score * Z).

Local Abbreviation rebuild := (rebuild Vec encode normalize_L2 astype_float32).
Local Abbreviation search :=
  (search Vec Score encode normalize_L2 astype_float32 index_search).
Local Abbreviation collect := (collect Score).
Local Abbreviation admitted := (admitted Score).

(** The loop keeps the admitted candidates, in order, until it has
    [top_k] results. *)
Lemma collect_firstn (self_chunks : list Chunk) (top_k : Z)
    (filter_type : string) (candidates : list (Score * Z)) :
  forall results,
    Z.of_nat (length results) < top_k ->
    collect self_chunks top_k filter_type candidates results
    = results
      ++ firstn (Z.to_nat top_k - length results)
           (omap (admitted self_chunks filter_type) candidates).
Proof.
  induction candidates as [|[score idx] rest IH]; intros results Hlt.
  - cbn. now rewrite firstn_nil, app_nil_r.
  - cbn [VectorStore.collect omap list_omap]. unfold VectorStore.admitted at 1.
    destruct ((idx <? 0) || (idx >=? Z.of_nat (length self_chunks)));
      [now apply IH|].
    destruct (self_chunks !! Z.to_nat idx) as [chunk|]; [|now apply IH].
    destruct (negb (String.eqb filter_type "all")
              && negb (String.eqb (file_type chunk) filter_type));
      [now apply IH|].
    destruct (Z.to_nat top_k - length results)%nat as [|left] eqn:Hleft; [lia|].
    cbn [firstn].
    destruct (Z.of_nat (length (results ++ [mkResult chunk score])) >=? top_k)
      eqn:Hfull; rewrite length_app, Z.geb_leb in Hfull; cbn [length] in Hfull.
    + apply Z.leb_le in Hfull. replace left with 0%nat by lia. reflexivity.
    + apply Z.leb_gt in Hfull.
      rewrite IH by (rewrite length_app; cbn [length]; lia).
      rewrite length_app. cbn [length]. rewrite <- app_assoc.
      replace (Z.to_nat top_k - (length results + 1))%nat with left by lia.
      reflexivity.
Qed.

(** X17: a search for [top_k >= 1] results on a store that has rows
    returns the first [top_k] candidates that name a stored chunk of the
    category asked for, in the order of the index, and all of them when
    they are fewer: candidates beyond the [3 * top_k] fetched are never
    looked at. *)
Theorem search_first_admitted (self : Store Vec) (rows : list Vec)
    (query : string) (top_k : Z) (filter_type : string) :
  0 < top_k ->
  index self = Some rows ->
  rows <> [] ->
  search self query top_k filter_type
  = firstn (Z.to_nat top_k)
      (omap (admitted (chunks self) filter_type)
         (index_search rows (astype_float32 (normalize_L2 (encode query)))
            (Z.min (top_k * 3) (ntotal Vec rows)))).
Proof.
  intros Hk Hindex Hrows. unfold VectorStore.search. rewrite Hindex.
  assert (Hn : (ntotal Vec rows =? 0) = false).
  { apply Z.eqb_neq. unfold ntotal.
    destruct rows; [congruence | cbn [length]; lia]. }
  rewrite Hn.
  rewrite collect_firstn by (cbn; lia).
  cbn [app length]. now rewrite Nat.sub_0_r.
Qed.

(** X18: after [rebuild] a search returns chunks of the list the store
    was rebuilt from and no other, whatever the store held before; after
    a rebuild from no chunk it returns nothing. *)
Theorem search_after_rebuild (self : Store Vec) (cs : list Chunk)
    (query : string) (top_k : Z) (filter_type : string) :
  Forall (fun r => In (r_chunk r) cs)
         (search (rebuild self cs) query top_k filter_type) /\
  (cs = [] -> search (rebuild self cs) query top_k filter_type = []).
Proof.
  split; [|now intros ->].
  destruct cs as [|c cs]; [constructor|].
  unfold VectorStore.search, VectorStore.rebuild, VectorStore.build.
  cbn [truthy negb index chunks].
  match goal with |- context [if ?b then _ else _] => destruct b end;
    [constructor|].
  eapply List.Forall_impl;
    [|apply (collect_from_candidate Score (c :: cs) top_k filter_type _ [] []);
      constructor].
  intros r (idx & _ & _ & Hchunk). now apply lookup_In in Hchunk.
Qed.

End Store.

Import Samples.

Lemma search_first_admitted_witness :
  0 < 2 /\
  index (rebuild Z len same same init pieces) = Some [9; 10; 13] /\
  List.map (fun r => (file_path (r_chunk r), r_score r))
    (search Z Z len same same knn
            (rebuild Z len same same init pieces) "os" 2 "code")
  = [("src/main.py", 9)].
Proof.
  split; [lia|]. split; [reflexivity|].
  rewrite (search_first_admitted Z Z len same same knn
             (rebuild Z len same same init pieces) [9; 10; 13] "os" 2 "code");
    [reflexivity | lia | reflexivity | discriminate].
Defined.

End StoreMore.

(** ** More on the server *)

Module ServerMore.

Import Indexer Server.

Section Reindex.

Variable md5_hexdigest : string -> string.
Variable path_suffix : string -> string.
Variable glob : string -> list string.
Variable fs : string -> option DiskFile.
Variable config : Config.

Variable Vec : Type.
Variable encode : string -> Vec.
Variable normalize_L2 : Vec -> Vec.
Variable astype_float32 : Vec -> Vec.

Local Abbreviation call_reindex :=
  (call_reindex md5_hexdigest path_suffix glob fs config Vec encode normalize_L2
                astype_float32).
Local Abbreviation initialize :=
  (initialize md5_hexdigest path_suffix glob fs config Vec encode normalize_L2
              astype_float32).

(** X19: a reindex keeps nothing of the state it starts from: it leaves
    the indexer and the store that [initialize] builds on the same disk
    with the same configuration. *)
Theorem reindex_is_fresh_start (sys : Sys Vec) : call_reindex sys = initialize.
Proof.
  unfold Server.call_reindex, Server.initialize, reindex.
  destruct (index_all md5_hexdigest path_suffix glob fs config
              {| chunks := []; files_index := ∅ |}) as [[self stats] log].
  reflexivity.
Qed.

(** X20: after a reindex the registry has no entry for a path that is
    not on the disk, whatever it held before. *)
Theorem reindex_forgets_missing_files (sys : Sys Vec) (path : string) :
  fs path = None ->
  files_index (indexer (call_reindex sys)) !! path = None.
Proof.
  intros Hgone. unfold Server.call_reindex, reindex.
  pose proof (IndexMore.index_all_entries md5_hexdigest path_suffix glob fs
                config {| chunks := []; files_index := ∅ |} path) as Hentries.
  destruct (index_all md5_hexdigest path_suffix glob fs config
              {| chunks := []; files_index := ∅ |}) as [[self stats] log].
  cbn [fst indexer] in *.
  destruct (files_index self !! path) as [info|] eqn:Hinfo; [|reflexivity].
  destruct (Hentries info eq_refl) as [Hold | (ftype & _ & Hrec)].
  - cbn in Hold. rewrite lookup_empty in Hold. discriminate.
  - destruct Hrec as (f & text & Hfs & _). congruence.
Qed.

End Reindex.

Import Samples.

Lemma reindex_forgets_missing_files_witness :
  disk "src/gone.py" = None /\
  files_index
    (indexer
       (call_reindex digest suffix found disk (sized 1000 100) Z len same same
          (mkSys
             {| chunks := [];
                files_index :=
                  {[ "src/gone.py" :=
                       {| fi_path := "src/gone.py"; fi_type := "code";
                          fi_size := 1; fi_modified := "2024-12-31T00:00:00";
                          fi_language := "python" |} ]} |}
             VectorStore.init)))
    !! "src/gone.py"
  = None.
Proof.
  split; [reflexivity|].
  apply (reindex_forgets_missing_files digest suffix found disk (sized 1000 100)
           Z len same same).
  reflexivity.
Defined.

End ServerMore.
